(** * Fake-news detector: the text normaliser and the prediction path

    A shallow embedding of [train_model.py] and [app.py].

    - [Unicode]: Python strings as lists of code points, and the rows of the
      Unicode character database that [str.lower], [str.strip] and the
      regular-expression classes [\s], [\d], [\w] consult.
    - [re]: a matcher for the regular expressions the program uses and
      [re.sub] on top of it.
    - [Str]: the string operators [in] and [count].
    - [train_model], [app]: the functions of the two source files; of
      [main()], the session state and the results column.
    - [Spec]: the normaliser as the specification words it, step by step.
    - [sklearn]: the vectoriser and the classifier, which are library objects
      loaded from disk. *)

From Stdlib Require Import List NArith Bool Arith Lia String Ascii.
From Stdlib Require Import Reals Lra.
Import ListNotations.

Set Implicit Arguments.

(** ** Python strings *)

Module Unicode.

(** A Python [str] is a sequence of Unicode code points. *)
Definition char := N.
Definition str := list char.

(** An ASCII literal as a Python string. *)
Definition py (s : string) : str := map N_of_ascii (list_ascii_of_string s).

Definition CAPITAL_SIGMA : char := 0x3A3%N.
Definition FINAL_SIGMA : char := 0x3C2%N.
Definition SMALL_SIGMA : char := 0x3C3%N.
Definition LOW_LINE : char := 95%N.

(** The tables of the character database the program reads through the
    interpreter.  They are data of the interpreter, not of this repository,
    and are taken as a parameter. *)
Record db := {
  isspace : char -> bool;      (* str.isspace: [\s], and what strip() removes *)
  isdecimal : char -> bool;    (* str.isdecimal: [\d] *)
  isalnum : char -> bool;      (* str.isalnum: [\w] apart from the low line *)
  tolower : char -> list char; (* full lowercase mapping of one code point *)
  final_sigma : str -> str -> bool
    (* Final_Sigma context: the text before (nearest first) and after *)
}.

Definition eqb_str (a b : str) : bool :=
  if list_eq_dec N.eq_dec a b then true else false.

(** A code point that lowercasing replaces by something else. *)
Definition changes_when_lowercased (U : db) (c : char) : bool :=
  (c =? CAPITAL_SIGMA)%N || negb (eqb_str (tolower U c) [c]).

(** What the database guarantees about case mappings: a lowercase mapping
    is made of code points that have no further mapping, and white space
    has no case.  (Capital sigma is lowercased by its context, not through
    [tolower].) *)
Record db_laws (U : db) : Prop := {
  tolower_stable :
    forall c d, (c =? CAPITAL_SIGMA)%N = false ->
      In d (tolower U c) -> changes_when_lowercased U d = false;
  small_sigma_stable : changes_when_lowercased U SMALL_SIGMA = false;
  final_sigma_stable : changes_when_lowercased U FINAL_SIGMA = false;
  space_uncased :
    forall c, isspace U c = true -> changes_when_lowercased U c = false
}.

(** The text from its first character that is not in [cls]. *)
Fixpoint drop_while (cls : char -> bool) (s : str) : str :=
  match s with
  | [] => []
  | c :: rest => if cls c then drop_while cls rest else s
  end.

Section Methods.
Variable U : db.

(** [\w] *)
Definition isword (c : char) : bool := isalnum U c || (c =? LOW_LINE)%N.

(** [str.lower()]: every code point is replaced by its lowercase mapping;
    capital sigma becomes final or small sigma by its context. *)
Fixpoint lower_from (before s : str) : str :=
  match s with
  | [] => []
  | c :: rest =>
      (if (c =? CAPITAL_SIGMA)%N
       then [if final_sigma U before rest then FINAL_SIGMA else SMALL_SIGMA]
       else tolower U c)
      ++ lower_from (c :: before) rest
  end.

Definition lower (s : str) : str := lower_from [] s.

(** [str.strip()]: white space is dropped from both ends. *)
Definition lstrip (s : str) : str := drop_while (isspace U) s.

Definition rstrip (s : str) : str := rev (lstrip (rev s)).

Definition strip (s : str) : str := rstrip (lstrip s).
End Methods.

Definition in_range (lo hi c : N) : bool := ((lo <=? c) && (c <=? hi))%N.

(** The rows for U+0000..U+007F (white space is U+0009..U+000D,
    U+001C..U+0020); a code point outside this block is given no class and
    no case mapping. *)
Definition basic_latin : db := {|
  isspace := fun c => in_range 9 13 c || in_range 28 32 c;
  isdecimal := fun c => in_range 48 57 c;
  isalnum := fun c => in_range 48 57 c || in_range 65 90 c || in_range 97 122 c;
  tolower := fun c => if in_range 65 90 c then [(c + 32)%N] else [c];
  final_sigma := fun _ _ => false
|}.

End Unicode.

(** ** Regular expressions *)

Module re.
Import Unicode.

(** The patterns of the program are sequences of one-character classes,
    each taken once or repeated greedily ([+]). *)
Inductive item :=
| One (cls : char -> bool)
| Plus (cls : char -> bool).

Definition pattern := list item.

(** The tail of a greedy repetition of [cls]: take one more character when
    that leads to a match, else go on with the rest of the pattern [k]. *)
Fixpoint more (cls : char -> bool) (k : str -> option str) (s : str)
    : option str :=
  match s with
  | c :: rest =>
      if cls c
      then match more cls k rest with
           | Some r => Some r
           | None => k s
           end
      else k s
  | [] => k []
  end.

(** Match [pat] at the start of [s]: the text left after the match.
    Repetition is greedy and gives characters back when the rest of the
    pattern fails. *)
Fixpoint match_here (pat : pattern) (s : str) {struct pat} : option str :=
  match pat with
  | [] => Some s
  | One cls :: pat' =>
      match s with
      | c :: rest => if cls c then match_here pat' rest else None
      | [] => None
      end
  | Plus cls :: pat' =>
      match s with
      | c :: rest => if cls c then more cls (match_here pat') rest else None
      | [] => None
      end
  end.

(** [re.sub(pat, repl, s)]: the leftmost matches, not overlapping, are
    replaced from left to right.  [skip] counts the characters of the
    current match that are still to be passed over. *)
Fixpoint sub_from (pat : pattern) (repl s : str) (skip : nat) : str :=
  match s with
  | [] =>
      match skip with
      | O => match match_here pat [] with Some _ => repl | None => [] end
      | S _ => []
      end
  | c :: rest =>
      match skip with
      | S k => sub_from pat repl rest k
      | O =>
          match match_here pat s with
          | Some r =>
              match List.length s - List.length r with
              | O => repl ++ c :: sub_from pat repl rest 0
              | S k => repl ++ sub_from pat repl rest k
              end
          | None => c :: sub_from pat repl rest 0
          end
      end
  end.

Definition sub (pat : pattern) (repl s : str) : str := sub_from pat repl s 0.

Section Patterns.
Variable U : db.

Definition lit (a : ascii) : item := One (N.eqb (N_of_ascii a)).

(** [r"http\S+"] *)
Definition r_url : pattern :=
  [lit "h"; lit "t"; lit "t"; lit "p"; Plus (fun c => negb (isspace U c))].

(** [r"\d+"] *)
Definition r_digits : pattern := [Plus (isdecimal U)].

(** [r"[^\w\s]"] *)
Definition r_punct : pattern :=
  [One (fun c => negb (isword U c || isspace U c))].
End Patterns.

End re.

(** ** Streamlit scripts and pickled files *)

Module streamlit.

Inductive exn :=
| FileNotFoundError
| UnpicklingError   (* what unpickling damaged data raises *)
| StopException.    (* raised by st.stop() to end the script run *)

Inductive result (A : Type) :=
| Return (a : A)
| Raise (e : exn).
Arguments Raise {A} e.

(** What the page shows: the messages passed to [st.error], oldest first. *)
Definition page := list string.

(** A computation of the script: it may write to the page, and it returns
    or raises. *)
Definition script (A : Type) := page -> result A * page.

Definition ret {A} (a : A) : script A := fun pg => (Return a, pg).

Definition bind {A B} (m : script A) (k : A -> script B) : script B :=
  fun pg =>
    match m pg with
    | (Return a, pg') => k a pg'
    | (Raise e, pg') => (Raise e, pg')
    end.

(** [try: body  except FileNotFoundError: handler] *)
Definition try_except_FileNotFoundError {A}
    (body handler : script A) : script A :=
  fun pg =>
    match body pg with
    | (Raise FileNotFoundError, pg') => handler pg'
    | other => other
    end.

Definition error (msg : string) : script unit :=
  fun pg => (Return tt, pg ++ [msg]).

Definition stop {A} : script A := fun pg => (Raise StopException, pg).

End streamlit.

Module joblib.
Import streamlit.

(** What is found at a path. *)
Inductive file (Obj : Type) :=
| Missing
| Corrupt
| Pickled (o : Obj).
Arguments Missing {Obj}.
Arguments Corrupt {Obj}.

Definition readable {Obj} (f : file Obj) : bool :=
  match f with Pickled _ => true | _ => false end.

Definition disk (Obj : Type) := string -> file Obj.

Definition load {Obj} (d : disk Obj) (path : string) : script Obj :=
  match d path with
  | Missing => fun pg => (Raise FileNotFoundError, pg)
  | Corrupt => fun pg => (Raise UnpicklingError, pg)
  | Pickled o => ret o
  end.

End joblib.

(** ** String operators *)

Module Str.
Import Unicode.

(** [s.startswith(prefix)] *)
Fixpoint startswith (prefix s : str) : bool :=
  match prefix, s with
  | [], _ => true
  | _ :: _, [] => false
  | p :: prefix', c :: s' => (p =? c)%N && startswith prefix' s'
  end.

(** [needle in s]: [needle] occurs somewhere in [s]. *)
Fixpoint contains (needle s : str) : bool :=
  startswith needle s
  || match s with [] => false | _ :: rest => contains needle rest end.

(** [s.count(needle)]: the occurrences of [needle] from left to right, not
    overlapping.  [skip] counts the characters of the current occurrence
    that are still to be passed over. *)
Fixpoint count_from (needle s : str) (skip : nat) : nat :=
  match s with
  | [] =>
      match skip with
      | O => if startswith needle [] then 1 else 0
      | S _ => 0
      end
  | _ :: rest =>
      match skip with
      | S k => count_from needle rest k
      | O =>
          if startswith needle s
          then S (count_from needle rest (List.length needle - 1))
          else count_from needle rest 0
      end
  end.

Definition count (needle s : str) : nat := count_from needle s 0.

End Str.

(** ** train_model.py *)

Module train_model.
Import Unicode.

(** [fake['label'] = 0] and [real['label'] = 1] *)
Definition fake_label : nat := 0.
Definition real_label : nat := 1.

Definition clean_text (U : db) (text : str) : str :=
  let text := lower U text in
  let text := re.sub (re.r_url U) [] text in      (* remove URLs *)
  let text := re.sub (re.r_digits U) [] text in   (* remove numbers *)
  let text := re.sub (re.r_punct U) [] text in    (* remove punctuation *)
  strip U text.

End train_model.

(** ** app.py *)

Module app.
Import Unicode streamlit.

(** The two objects [predict_news] is given are used through their methods
    only. *)
Record Vectorizer (X : Type) := {
  transform : list str -> X
}.

Record Model (X L P : Type) := {
  predict : X -> list L;
  predict_proba : X -> list P
}.

Definition model_files_not_found : string :=
  "Model files not found! Please make sure you have trained the model first by running train_model.py".

Definition load_model {Obj} (d : joblib.disk Obj) : script (Obj * Obj) :=
  try_except_FileNotFoundError
    (bind (joblib.load d "model/model.pkl") (fun model =>
     bind (joblib.load d "model/vectorizer.pkl") (fun vectorizer =>
     ret (model, vectorizer))))
    (bind (error model_files_not_found) (fun _ => stop)).

Definition clean_text (U : db) (text : str) : str :=
  let text := lower U text in
  let text := re.sub (re.r_url U) [] text in      (* remove URLs *)
  let text := re.sub (re.r_digits U) [] text in   (* remove numbers *)
  let text := re.sub (re.r_punct U) [] text in    (* remove punctuation *)
  strip U text.

(** [xs[0]] raises IndexError on an empty sequence: [None]. *)
Definition predict_news {X L P} (U : db) (text : str)
    (model : Model X L P) (vectorizer : Vectorizer X) : option (L * P) :=
  let cleaned_text := clean_text U text in
  let text_vec := transform vectorizer [cleaned_text] in
  match nth_error (predict model text_vec) 0 with
  | None => None
  | Some prediction =>
      match nth_error (predict_proba model text_vec) 0 with
      | None => None
      | Some probability => Some (prediction, probability)
      end
  end.

(** [any(word in text for word in words)] *)
Definition any_in (words : list string) (text : str) : bool :=
  existsb (fun word => Str.contains (py word) text) words.

(** [indicators.append(label)] when [cond] holds. *)
Definition append_if (cond : bool) (label : string) (indicators : list string)
    : list string :=
  if cond then indicators ++ [label] else indicators.

Definition analyze_text_features (U : db) (text : str)
    : list string * list string :=
  let text_lower := lower U text in
  (* Fake news indicators *)
  let fake_indicators := [] in
  let fake_indicators :=
    append_if (any_in ["breaking"; "urgent"; "alert"]%string text_lower)
      "Sensationalist headlines" fake_indicators in
  let fake_indicators :=
    append_if (any_in ["shocking"; "unbelievable"; "incredible"]%string text_lower)
      "Emotional language" fake_indicators in
  let fake_indicators :=
    append_if
      (any_in ["government cover"; "conspiracy"; "they don't want you to know"]%string
         text_lower)
      "Conspiracy language" fake_indicators in
  let fake_indicators :=
    append_if (any_in ["anonymous"; "secret source"; "insider"]%string text_lower)
      "Unverifiable sources" fake_indicators in
  let fake_indicators :=
    append_if (Str.contains (py "!!!") text || (3 <? Str.count (py "!") text))
      "Excessive exclamation marks" fake_indicators in
  (* Real news indicators *)
  let real_indicators := [] in
  let real_indicators :=
    append_if
      (any_in ["according to"; "study shows"; "research indicates"]%string text_lower)
      "Attribution to sources" real_indicators in
  let real_indicators :=
    append_if (any_in ["dr."; "professor"; "researcher"]%string text_lower)
      "Expert sources" real_indicators in
  let real_indicators :=
    append_if
      (any_in ["university"; "institute"; "journal"; "published"]%string text_lower)
      "Academic/institutional sources" real_indicators in
  let real_indicators :=
    append_if (any_in ["data"; "statistics"; "study"; "research"]%string text_lower)
      "Evidence-based language" real_indicators in
  (fake_indicators, real_indicators).

(** *** main(): the session state and the results column

    One run of the script, as far as it reads and writes
    [st.session_state] and computes what the results column shows.  The
    widgets are inputs of the run: the text in the input area and the button
    that was clicked, if any.  The model and the vectoriser are the ones
    [load_model] returned; the two example texts are parameters. *)

(** [st.session_state]; [None] is an attribute that is not set. *)
Record session_state := {
  last_prediction : option nat;
  last_probability : option (list R);
  last_text : option str;
  example_text : option str
}.

Definition new_session : session_state :=
  {| last_prediction := None; last_probability := None;
     last_text := None; example_text := None |}.

Inductive button :=
| Analyze_Article
| Load_Real_News_Example
| Load_Fake_News_Example
| Analyze_Example.

Record widgets := {
  article_text : str;
  clicked : option button
}.

Inductive error := AttributeError | IndexError.

(** How a run ends: at the end of the script, by [st.rerun()], or by an
    exception. *)
Inductive ending := Finished | Rerun | Raised (e : error).

(** What the results column computes from the session state; the text
    statistics and the preview of the cleaned text, which cannot fail, are
    left out. *)
Record panel := {
  result : string;
  confidence : R;
  fake_prob : R;
  real_prob : R;
  insight : string;
  indicators : list string * list string
}.

Definition is_clicked (w : widgets) (b : button) : bool :=
  match clicked w, b with
  | Some Analyze_Article, Analyze_Article
  | Some Load_Real_News_Example, Load_Real_News_Example
  | Some Load_Fake_News_Example, Load_Fake_News_Example
  | Some Analyze_Example, Analyze_Example => true
  | _, _ => false
  end.

(** The three assignments that store a prediction. *)
Definition store (prediction : nat) (probability : list R) (text : str)
    (s : session_state) : session_state :=
  {| last_prediction := Some prediction;
     last_probability := Some probability;
     last_text := Some text;
     example_text := example_text s |}.

Definition set_example_text (text : str) (s : session_state) : session_state :=
  {| last_prediction := last_prediction s;
     last_probability := last_probability s;
     last_text := last_text s;
     example_text := Some text |}.

(** The message under "Insights". *)
Definition insight_of (confidence : R) : string :=
  if Rlt_dec 80 confidence then "High confidence prediction"
  else if Rlt_dec 60 confidence
       then "Moderate confidence - consider additional verification"
       else "Low confidence - manual verification recommended".

(** The results column when [last_prediction] is set. *)
Definition results_column (U : db) (s : session_state) (prediction : nat)
    : error + panel :=
  match last_probability s with
  | None => inl AttributeError
  | Some probability =>
      match
        (if prediction =? 1
         then option_map (fun p => ("REAL NEWS"%string, (p * 100)%R))
                (nth_error probability 1)
         else option_map (fun p => ("FAKE NEWS"%string, (p * 100)%R))
                (nth_error probability 0))
      with
      | None => inl IndexError
      | Some (result, confidence) =>
          match nth_error probability 0, nth_error probability 1 with
          | Some p0, Some p1 =>
              match last_text s with
              | None => inl AttributeError
              | Some text =>
                  inr {| result := result;
                         confidence := confidence;
                         fake_prob := (p0 * 100)%R;
                         real_prob := (p1 * 100)%R;
                         insight := insight_of confidence;
                         indicators := analyze_text_features U text |}
              end
          | _, _ => inl IndexError
          end
      end
  end.

Definition main {X} (U : db) (example_real example_fake : str)
    (model : Model X nat (list R)) (vectorizer : Vectorizer X)
    (w : widgets) (s : session_state)
    : session_state * option panel * ending :=
  (* the input column *)
  let analyzed :=
    if is_clicked w Analyze_Article
    then match strip U (article_text w) with
         | [] => inr s                      (* st.warning *)
         | _ :: _ =>
             match predict_news U (article_text w) model vectorizer with
             | None => inl IndexError
             | Some (prediction, probability) =>
                 inr (store prediction probability (article_text w) s)
             end
         end
    else inr s in
  match analyzed with
  | inl e => (s, None, Raised e)
  | inr s =>
      (* the results column *)
      let shown :=
        match last_prediction s with
        | Some prediction =>
            match results_column U s prediction with
            | inl e => inl e
            | inr p => inr (Some p)
            end
        | None => inr None                  (* st.info *)
        end in
      match shown with
      | inl e => (s, None, Raised e)
      | inr shown =>
          (* the examples *)
          if is_clicked w Load_Real_News_Example
          then (set_example_text example_real s, shown, Rerun)
          else if is_clicked w Load_Fake_News_Example
          then (set_example_text example_fake s, shown, Rerun)
          else
            match example_text s with
            | Some text =>
                if is_clicked w Analyze_Example
                then match predict_news U text model vectorizer with
                     | None => (s, shown, Raised IndexError)
                     | Some (prediction, probability) =>
                         (store prediction probability text s, shown, Rerun)
                     end
                else (s, shown, Finished)
            | None => (s, shown, Finished)
            end
      end
  end.

(** The session after a sequence of runs; the state outlives a run however
    it ends. *)
Fixpoint runs {X} (U : db) (example_real example_fake : str)
    (model : Model X nat (list R)) (vectorizer : Vectorizer X)
    (ws : list widgets) (s : session_state) : session_state :=
  match ws with
  | [] => s
  | w :: ws' =>
      runs U example_real example_fake model vectorizer ws'
        (fst (fst (main U example_real example_fake model vectorizer w s)))
  end.

(** *** predict_news on objects with state

    [model] and [vectorizer] are Python objects: a method call may change
    the object it is called on.  A class gives the methods as functions of
    the object's state, which return the state the call leaves behind. *)

Record VectorizerClass (V X : Type) := {
  transform_on : V -> list str -> X * V
}.

Record ModelClass (M X L P : Type) := {
  predict_on : M -> X -> list L * M;
  predict_proba_on : M -> X -> list P * M
}.

(** What a call of [predict_news] computes and leaves behind: the feature
    matrix [text_vec], what it returns ([None] for the IndexError of
    [xs[0]]), and the two objects after the call. *)
Record call (M V X L P : Type) := {
  text_vec : X;
  returned : option (L * P);
  model_after : M;
  vectorizer_after : V
}.

Definition predict_news_call {M V X L P}
    (model_class : ModelClass M X L P) (vectorizer_class : VectorizerClass V X)
    (U : db) (text : str) (model : M) (vectorizer : V) : call M V X L P :=
  let cleaned_text := clean_text U text in
  let (text_vec, vectorizer) :=
    transform_on vectorizer_class vectorizer [cleaned_text] in
  let (predictions, model) := predict_on model_class model text_vec in
  match nth_error predictions 0 with
  | None =>
      {| text_vec := text_vec; returned := None;
         model_after := model; vectorizer_after := vectorizer |}
  | Some prediction =>
      let (probabilities, model) :=
        predict_proba_on model_class model text_vec in
      match nth_error probabilities 0 with
      | None =>
          {| text_vec := text_vec; returned := None;
             model_after := model; vectorizer_after := vectorizer |}
      | Some probability =>
          {| text_vec := text_vec;
             returned := Some (prediction, probability);
             model_after := model; vectorizer_after := vectorizer |}
      end
  end.

(** Methods that leave their object as it was. *)
Definition read_only_vectorizer {V X} (c : VectorizerClass V X) : Prop :=
  forall v docs, snd (transform_on c v docs) = v.

Definition read_only_model {M X L P} (c : ModelClass M X L P) : Prop :=
  (forall m x, snd (predict_on c m x) = m)
  /\ (forall m x, snd (predict_proba_on c m x) = m).

End app.

(** ** The normaliser as the specification words it *)

Module Spec.
Import Unicode.

Section Steps.
Variable U : db.

(** Step 1: lowercase all characters. *)
Definition lowercase (s : str) : str := lower U s.

(** Step 2: a URL is [http] followed at once by a run of characters that
    are not white space; the run is taken as far as it goes. *)
Definition starts_url (s : str) : bool :=
  match s with
  | a :: b :: c :: d :: e :: _ =>
      (a =? 104)%N && (b =? 116)%N && (c =? 116)%N && (d =? 112)%N
      && negb (isspace U e)
  | _ => false
  end.

Definition skip_run (s : str) : str :=
  drop_while (fun c => negb (isspace U c)) s.

Fixpoint remove_urls_fuel (fuel : nat) (s : str) : str :=
  match fuel with
  | O => s
  | S fuel' =>
      match s with
      | [] => []
      | c :: rest =>
          if starts_url s
          then remove_urls_fuel fuel' (skip_run (skipn 4 s))
          else c :: remove_urls_fuel fuel' rest
      end
  end.

Definition remove_urls (s : str) : str := remove_urls_fuel (List.length s) s.

(** Whether a URL begins somewhere in [s]. *)
Fixpoint contains_url (s : str) : bool :=
  starts_url s || match s with [] => false | _ :: rest => contains_url rest end.

(** Step 3: remove every digit character. *)
Definition remove_digits (s : str) : str :=
  filter (fun c => negb (isdecimal U c)) s.

(** Step 4: remove every character that is neither a word character nor
    white space. *)
Definition remove_punctuation (s : str) : str :=
  filter (fun c => isword U c || isspace U c) s.

(** Step 5: [t] is [s] without its leading and trailing white space. *)
Definition trimmed (s t : str) : Prop :=
  exists l r,
    s = l ++ t ++ r
    /\ forallb (isspace U) l = true
    /\ forallb (isspace U) r = true
    /\ (forall c rest, t = c :: rest -> isspace U c = false)
    /\ (forall init c, t = init ++ [c] -> isspace U c = false).

Definition normalize (s : str) : str :=
  strip U (remove_punctuation (remove_digits (remove_urls (lowercase s)))).
End Steps.

End Spec.

(** ** The vectoriser and the classifier *)

Module sklearn.
Import Unicode.
Local Open Scope R_scope.

(** Feature vectors are dense here, one entry per vocabulary token, over
    the real numbers; a matrix has one row per document. *)
Definition vector := list R.
Definition matrix := list vector.

(** Modelled from the spec: the fitted state of [TfidfVectorizer], which is
    unpickled from [model/vectorizer.pkl]: an ordered vocabulary (a token's
    position is its feature index), one IDF weight per vocabulary entry,
    and the fixed stop-word list. *)
Record VectorizerState := {
  vocabulary : list str;
  idf : list R;
  stop_words : list str
}.

(** Modelled from the spec: the fitted state of [LogisticRegression], which
    is unpickled from [model/model.pkl]: one coefficient per feature and a
    bias term. *)
Record ClassifierState := {
  weights : list R;
  bias : R
}.

Section Transform.
Variable U : db.

(** Modelled from the spec: the tokeniser of [TfidfVectorizer], which
    cuts the text at word boundaries; a token is a maximal run of word
    characters.  [cur] is the token being read, last character first. *)
Definition flush (cur : str) : list str :=
  match cur with [] => [] | _ => [rev cur] end.

(** Modelled from the spec: the scan of the tokeniser; a character that is
    not a word character ends the token being read. *)
Fixpoint tokenize_from (cur s : str) : list str :=
  match s with
  | [] => flush cur
  | c :: rest =>
      if isword U c then tokenize_from (c :: cur) rest
      else flush cur ++ tokenize_from [] rest
  end.

(** Modelled from the spec: the tokens of a document, in order. *)
Definition tokenize (s : str) : list str := tokenize_from [] s.

Definition mem (t : str) (l : list str) : bool := existsb (eqb_str t) l.

(** Modelled from the spec: tokens of the stop-word list are discarded. *)
Definition analyze (st : VectorizerState) (doc : str) : list str :=
  filter (fun t => negb (mem t (stop_words st))) (tokenize doc).

(** Modelled from the spec: the term frequency of [TfidfVectorizer], the
    raw count of the token in the document. *)
Definition term_frequency (t : str) (tokens : list str) : nat :=
  count_occ (list_eq_dec N.eq_dec) tokens t.

(** Modelled from the spec: [TfidfVectorizer.transform], one entry per
    vocabulary token, term frequency (the raw count) times the token's
    IDF weight; a token that is not in the vocabulary has no entry. *)
Fixpoint weigh (tokens vocab : list str) (idf : list R) : vector :=
  match vocab with
  | [] => []
  | t :: vocab' =>
      INR (term_frequency t tokens) * hd 0 idf
      :: weigh tokens vocab' (tl idf)
  end.

(** Modelled from the spec: [TfidfVectorizer.transform] on a batch, one
    feature vector per document, from the fitted state alone. *)
Definition transform (st : VectorizerState) (docs : list str) : matrix :=
  map (fun doc => weigh (analyze st doc) (vocabulary st) (idf st)) docs.
End Transform.

(** Modelled from the spec: [dot(weights, features)] of
    [LogisticRegression]. *)
Fixpoint dot (w x : vector) : R :=
  match w, x with
  | a :: w', b :: x' => a * b + dot w' x'
  | _, _ => 0
  end.

(** Modelled from the spec: the linear score of [LogisticRegression],
    [dot(weights, features) + bias]. *)
Definition score (st : ClassifierState) (x : vector) : R :=
  dot (weights st) x + bias st.

(** Modelled from the spec: the logistic function,
    [p(real) = 1 / (1 + exp(-score))]. *)
Definition sigmoid (z : R) : R := 1 / (1 + exp (- z)).

(** Modelled from the spec: the decision of [LogisticRegression.predict],
    the class with the larger probability: class 1 (real) for a positive
    score, class 0 (fake) otherwise, the tie at score 0 going to class 0 as
    the tie-break rule of the specification has it. *)
Definition label_of_score (z : R) : nat :=
  if Rlt_dec 0 z then train_model.real_label else train_model.fake_label.

(** Modelled from the spec: [LogisticRegression.predict] on a batch, one
    label per feature vector. *)
Definition predict (st : ClassifierState) (X : matrix) : list nat :=
  map (fun x => label_of_score (score st x)) X.

(** Modelled from the spec: [LogisticRegression.predict_proba] on a batch,
    one vector [p(fake), p(real)] per feature vector, with
    [p(fake) = 1 - p(real)]. *)
Definition predict_proba (st : ClassifierState) (X : matrix) : list vector :=
  map (fun x => let p := sigmoid (score st x) in [1 - p; p]) X.

(** Modelled from the spec: the unpickled vectoriser, as
    [app.predict_news] receives it. *)
Definition TfidfVectorizer (U : db) (st : VectorizerState) : app.Vectorizer matrix :=
  {| app.transform := transform U st |}.

(** Modelled from the spec: the unpickled classifier, as
    [app.predict_news] receives it. *)
Definition LogisticRegression (st : ClassifierState) : app.Model matrix nat vector :=
  {| app.predict := predict st; app.predict_proba := predict_proba st |}.

(** Modelled from the spec: the class of the fitted vectoriser; its state
    is immutable after training, [transform] has no side effect. *)
Definition TfidfVectorizer_class (U : db)
    : app.VectorizerClass VectorizerState matrix :=
  {| app.transform_on := fun st docs => (transform U st docs, st) |}.

(** Modelled from the spec: the class of the fitted classifier; its state
    is immutable after training, [predict] and [predict_proba] only read
    it. *)
Definition LogisticRegression_class
    : app.ModelClass ClassifierState matrix nat vector :=
  {| app.predict_on := fun st X => (predict st X, st);
     app.predict_proba_on := fun st X => (predict_proba st X, st) |}.

(** A vectoriser that is not read-only, for comparison: it transforms with
    the vocabulary it has and then adds the tokens it has seen to it, which
    the fitted vectoriser never does. *)
Definition learning_vectorizer_class (U : db)
    : app.VectorizerClass VectorizerState matrix :=
  {| app.transform_on := fun st docs =>
       (transform U st docs,
        {| vocabulary := vocabulary st ++ List.concat (map (analyze U st) docs);
           idf := idf st;
           stop_words := stop_words st |}) |}.

End sklearn.

(** ** Further notions for the normaliser *)

Definition DOUBLE_STRUCK_CAPITAL_C : Unicode.char := 0x2102%N.

(** The rows of Basic Latin and the row of U+2102, which is a letter (so a
    word character), uppercase, and has no lowercase mapping. *)
Definition letterlike : Unicode.db := {|
  Unicode.isspace := Unicode.isspace Unicode.basic_latin;
  Unicode.isdecimal := Unicode.isdecimal Unicode.basic_latin;
  Unicode.isalnum := fun c =>
    Unicode.isalnum Unicode.basic_latin c || (c =? DOUBLE_STRUCK_CAPITAL_C)%N;
  Unicode.tolower := Unicode.tolower Unicode.basic_latin;
  Unicode.final_sigma := Unicode.final_sigma Unicode.basic_latin
|}.

(** [str.isupper] on one code point of these rows: A to Z and U+2102. *)
Definition letterlike_isupper (c : Unicode.char) : bool :=
  Unicode.in_range 65 90 c || (c =? DOUBLE_STRUCK_CAPITAL_C)%N.

(** [t] is [s] with some elements deleted. *)
Inductive subseq {A : Type} : list A -> list A -> Prop :=
| subseq_nil : subseq [] []
| subseq_keep c t s : subseq t s -> subseq (c :: t) (c :: s)
| subseq_drop c t s : subseq t s -> subseq t (c :: s).

(** A string in the form [clean_text] returns: no character that
    lowercasing changes, no digit, only word characters and white space, no
    white space at either end. *)
Definition canonical (U : Unicode.db) (s : Unicode.str) : Prop :=
  (forall c, In c s ->
     Unicode.changes_when_lowercased U c = false
     /\ Unicode.isdecimal U c = false
     /\ Unicode.isword U c || Unicode.isspace U c = true)
  /\ (forall c rest, s = c :: rest -> Unicode.isspace U c = false)
  /\ (forall init c, s = init ++ [c] -> Unicode.isspace U c = false).

(** A character the normaliser drops or trims: a digit, or neither word
    character nor white space, or white space. *)
Definition droppable (U : Unicode.db) (c : Unicode.char) : bool :=
  Unicode.isdecimal U c
  || negb (Unicode.isword U c || Unicode.isspace U c)
  || Unicode.isspace U c.

(** The letters of [http] are not white space. *)
Definition http_letters_not_space (U : Unicode.db) : Prop :=
  Unicode.isspace U 104%N = false
  /\ Unicode.isspace U 116%N = false
  /\ Unicode.isspace U 112%N = false.

(** The two lowercase forms of capital sigma. *)
Definition is_lower_sigma (c : Unicode.char) : bool :=
  (c =? Unicode.FINAL_SIGMA)%N || (c =? Unicode.SMALL_SIGMA)%N.

(** Two texts that differ at most in which lowercase sigma stands where. *)
Definition sigma_variant (a b : Unicode.str) : Prop :=
  Forall2 (fun x y => x = y \/ (is_lower_sigma x = true /\ is_lower_sigma y = true))
    a b.

(** The stored prediction is the prediction of the stored text; the three
    attributes are set together. *)
Definition coherent {X} (U : Unicode.db)
    (model : app.Model X nat (list R)) (vectorizer : app.Vectorizer X)
    (s : app.session_state) : Prop :=
  match app.last_prediction s, app.last_probability s, app.last_text s with
  | Some prediction, Some probability, Some text =>
      app.predict_news U text model vectorizer = Some (prediction, probability)
  | None, None, None => True
  | _, _, _ => False
  end.

(** * Properties *)

Import Unicode.

(** ** Concrete runs *)

Example clean_text_article :
  app.clean_text basic_latin (py "  BREAKING: 3 things, see HTTPS://t.co/x1?y now! ")
  = py "breaking  things see  now".
Proof. vm_compute. reflexivity. Qed.

Example clean_text_keeps_bare_http :
  app.clean_text basic_latin (py "the http protocol") = py "the http protocol".
Proof. vm_compute. reflexivity. Qed.

Example sub_backtracks :
  re.sub [re.Plus (N.eqb 116); re.One (N.eqb 116)] (py "-") (py "attic tt t")
  = py "a-ic - t".
Proof. vm_compute. reflexivity. Qed.

Example tokenize_words :
  sklearn.tokenize basic_latin (py "fake news  about_the news")
  = [py "fake"; py "news"; py "about_the"; py "news"].
Proof. vm_compute. reflexivity. Qed.

(** ** Regular expressions of the program as list functions *)

Section ReSub.
Variable U : db.

Lemma more_last cls s : re.more cls (re.match_here []) s = Some (drop_while cls s).
Proof.
  induction s as [|c rest IH]; cbn [re.more drop_while]; [reflexivity|].
  destruct (cls c); [rewrite IH|]; reflexivity.
Qed.

Lemma more_suffix cls (k : str -> option str) :
  (forall s r, k s = Some r -> exists pre, s = pre ++ r) ->
  forall s r, re.more cls k s = Some r -> exists pre, s = pre ++ r.
Proof.
  intros Hk s; induction s as [|c rest IH]; simpl; intros r H.
  - apply Hk, H.
  - destruct (cls c); [|apply Hk, H].
    destruct (re.more cls k rest) as [r'|] eqn:E.
    + inversion H; subst r'. destruct (IH r eq_refl) as [pre ->].
      exists (c :: pre); reflexivity.
    + apply Hk, H.
Qed.

Lemma match_here_suffix pat :
  forall s r, re.match_here pat s = Some r -> exists pre, s = pre ++ r.
Proof.
  induction pat as [|[cls|cls] pat' IH]; simpl; intros s r H.
  - inversion H; subst. exists []; reflexivity.
  - destruct s as [|c rest]; [discriminate|].
    destruct (cls c); [|discriminate].
    destruct (IH _ _ H) as [pre ->]. exists (c :: pre); reflexivity.
  - destruct s as [|c rest]; [discriminate|].
    destruct (cls c); [|discriminate].
    destruct (more_suffix cls _ IH _ H) as [pre ->].
    exists (c :: pre); reflexivity.
Qed.

Lemma sub_from_skip pat repl :
  forall s k, k <= List.length s ->
    re.sub_from pat repl s k = re.sub_from pat repl (skipn k s) 0.
Proof.
  induction s as [|c rest IH]; intros [|k] Hk; simpl in *; try reflexivity; try lia.
  apply IH; lia.
Qed.

(** One step of [re.sub]: a match that consumed something is cut out and
    the scan goes on behind it. *)
Lemma sub_cons pat repl c rest :
  re.sub pat repl (c :: rest) =
  match re.match_here pat (c :: rest) with
  | Some r =>
      if List.length r <? List.length (c :: rest)
      then repl ++ re.sub pat repl r
      else repl ++ c :: re.sub pat repl rest
  | None => c :: re.sub pat repl rest
  end.
Proof.
  unfold re.sub; cbn [re.sub_from].
  destruct (re.match_here pat (c :: rest)) as [r|] eqn:E; [|reflexivity].
  destruct (match_here_suffix _ _ E) as [pre Hpre].
  destruct pre as [|p pre].
  - simpl in Hpre; subst r. rewrite Nat.sub_diag, Nat.ltb_irrefl. reflexivity.
  - injection Hpre as Hc Hr. subst p rest.
    assert (Hlen : List.length (c :: pre ++ r) = S (List.length pre) + List.length r)
      by (cbn [List.length]; rewrite length_app; lia).
    rewrite Hlen.
    replace (S (List.length pre) + List.length r - List.length r)
      with (S (List.length pre)) by lia.
    replace (List.length r <? S (List.length pre) + List.length r) with true
      by (symmetry; apply Nat.ltb_lt; lia).
    rewrite sub_from_skip by (rewrite length_app; lia).
    rewrite skipn_app, skipn_all, Nat.sub_diag. reflexivity.
Qed.

End ReSub.

(** ** The three substitutions of [clean_text] *)

Section Steps.
Variable U : db.

Lemma drop_while_length cls s : List.length (drop_while cls s) <= List.length s.
Proof.
  induction s as [|c rest IH]; simpl; [lia|].
  destruct (cls c); simpl; lia.
Qed.

Lemma filter_drop_while cls s :
  filter (fun c => negb (cls c)) (drop_while cls s) = filter (fun c => negb (cls c)) s.
Proof.
  induction s as [|c rest IH]; simpl; [reflexivity|].
  destruct (cls c) eqn:E; simpl; [exact IH|].
  rewrite E; reflexivity.
Qed.

Lemma str_length_ind (P : str -> Prop) :
  (forall s, (forall t, List.length t < List.length s -> P t) -> P s) ->
  forall s, P s.
Proof.
  intros H s.
  assert (G : forall n t, List.length t < n -> P t).
  { induction n as [|n IH]; intros t Ht; [lia|].
    apply H. intros t' Ht'. apply IH. lia. }
  apply (G (S (List.length s))). lia.
Qed.

(** [re.sub(r"\d+", "", s)] deletes the digits of [s]. *)
Lemma sub_digits s : re.sub (re.r_digits U) [] s = Spec.remove_digits U s.
Proof.
  induction s as [s IH] using str_length_ind.
  destruct s as [|c rest]; [reflexivity|].
  rewrite sub_cons. unfold Spec.remove_digits in *.
  cbn [re.r_digits re.match_here filter].
  destruct (isdecimal U c) eqn:E; cbn [negb].
  - rewrite more_last.
    pose proof (drop_while_length (isdecimal U) rest) as Hl.
    replace (List.length (drop_while (isdecimal U) rest) <? List.length (c :: rest))
      with true by (symmetry; apply Nat.ltb_lt; simpl; lia).
    cbn [app]. rewrite IH by (simpl; lia).
    apply filter_drop_while.
  - f_equal. apply IH. simpl; lia.
Qed.

(** [re.sub(r"[^\w\s]", "", s)] keeps the word characters and the white
    space of [s]. *)
Lemma sub_punct s : re.sub (re.r_punct U) [] s = Spec.remove_punctuation U s.
Proof.
  induction s as [|c rest IH]; [reflexivity|].
  rewrite sub_cons. unfold Spec.remove_punctuation in *.
  cbn [re.r_punct re.match_here filter].
  destruct (isword U c || isspace U c); cbn [negb].
  - f_equal. exact IH.
  - replace (List.length rest <? List.length (c :: rest)) with true
      by (symmetry; apply Nat.ltb_lt; simpl; lia).
    exact IH.
Qed.

Lemma match_here_url s :
  re.match_here (re.r_url U) s =
  if Spec.starts_url U s then Some (Spec.skip_run U (skipn 4 s)) else None.
Proof.
  unfold Spec.starts_url, Spec.skip_run, re.r_url, re.lit.
  change (N_of_ascii "h") with 104%N.
  change (N_of_ascii "t") with 116%N.
  change (N_of_ascii "p") with 112%N.
  destruct s as [|a [|b [|c [|d [|e rest]]]]]; cbn [re.match_here skipn];
    rewrite ?(N.eqb_sym 104), ?(N.eqb_sym 116), ?(N.eqb_sym 112);
    repeat match goal with
           | |- context [if N.eqb ?y ?v then _ else _] =>
               destruct (N.eqb y v); cbn [andb]
           end; try reflexivity.
  cbn [drop_while]. destruct (isspace U e); cbn [negb]; [reflexivity|].
  apply more_last.
Qed.

Lemma skip_run_length s : List.length (Spec.skip_run U (skipn 4 s)) <= List.length s - 1.
Proof.
  unfold Spec.skip_run.
  etransitivity; [apply drop_while_length|].
  rewrite length_skipn. lia.
Qed.

Lemma remove_urls_fuel_any :
  forall n m s, List.length s <= n -> List.length s <= m ->
    Spec.remove_urls_fuel U n s = Spec.remove_urls_fuel U m s.
Proof.
  induction n as [|n IH]; intros m s Hn Hm.
  - destruct s; [|simpl in Hn; lia]. destruct m; reflexivity.
  - destruct s as [|c rest]; [destruct m; reflexivity|].
    destruct m as [|m]; [simpl in Hm; lia|].
    cbn [Spec.remove_urls_fuel].
    pose proof (skip_run_length (c :: rest)) as Hl.
    cbn [List.length] in Hn, Hm, Hl.
    destruct (Spec.starts_url U (c :: rest)).
    + apply IH; lia.
    + f_equal. apply IH; lia.
Qed.

Lemma remove_urls_cons c rest :
  Spec.remove_urls U (c :: rest) =
  if Spec.starts_url U (c :: rest)
  then Spec.remove_urls U (Spec.skip_run U (skipn 4 (c :: rest)))
  else c :: Spec.remove_urls U rest.
Proof.
  unfold Spec.remove_urls. cbn [List.length Spec.remove_urls_fuel].
  pose proof (skip_run_length (c :: rest)) as Hl. cbn [List.length] in Hl.
  destruct (Spec.starts_url U (c :: rest)).
  - apply remove_urls_fuel_any; lia.
  - reflexivity.
Qed.

(** [re.sub(r"http\S+", "", s)] cuts out the URLs of [s]. *)
Lemma sub_url s : re.sub (re.r_url U) [] s = Spec.remove_urls U s.
Proof.
  induction s as [s IH] using str_length_ind.
  destruct s as [|c rest]; [reflexivity|].
  rewrite sub_cons, remove_urls_cons, match_here_url.
  pose proof (skip_run_length (c :: rest)) as Hl. cbn [List.length] in Hl.
  destruct (Spec.starts_url U (c :: rest)).
  - replace (List.length (Spec.skip_run U (skipn 4 (c :: rest))) <? List.length (c :: rest))
      with true by (symmetry; apply Nat.ltb_lt; cbn [List.length]; lia).
    cbn [app]. apply IH. cbn [List.length]; lia.
  - f_equal. apply IH. simpl; lia.
Qed.

End Steps.

(** ** [str.strip] *)

Section Strip.
Variable U : db.

Lemma drop_while_split cls s :
  exists l, s = l ++ drop_while cls s /\ forallb cls l = true.
Proof.
  induction s as [|c rest [l [Hl Hall]]]; simpl.
  - exists []; split; reflexivity.
  - destruct (cls c) eqn:E.
    + exists (c :: l); simpl. rewrite E, Hall. split; [f_equal; exact Hl | reflexivity].
    + exists []; split; reflexivity.
Qed.

Lemma drop_while_head cls s c rest :
  drop_while cls s = c :: rest -> cls c = false.
Proof.
  induction s as [|a s IH]; simpl; [discriminate|].
  destruct (cls a) eqn:E; [exact IH|].
  intros H; injection H as -> _; exact E.
Qed.

Lemma drop_while_all cls s : forallb cls s = true -> drop_while cls s = [].
Proof.
  induction s as [|c rest IH]; simpl; [reflexivity|].
  destruct (cls c); simpl; [exact IH | discriminate].
Qed.

Lemma drop_while_fixed cls c rest :
  cls c = false -> drop_while cls (c :: rest) = c :: rest.
Proof. intros E; simpl; rewrite E; reflexivity. Qed.

Lemma forallb_rev (cls : char -> bool) l :
  forallb cls l = true -> forallb cls (rev l) = true.
Proof.
  rewrite !forallb_forall. intros H x Hx. apply H, in_rev, Hx.
Qed.

Lemma rstrip_split s :
  exists r, s = rstrip U s ++ r /\ forallb (isspace U) r = true.
Proof.
  unfold rstrip, lstrip.
  destruct (drop_while_split (isspace U) (rev s)) as [l [Hl Hall]].
  exists (rev l). split; [|apply forallb_rev, Hall].
  rewrite <- rev_app_distr, <- Hl, rev_involutive. reflexivity.
Qed.

Lemma rstrip_last s init c : rstrip U s = init ++ [c] -> isspace U c = false.
Proof.
  unfold rstrip, lstrip. intros H.
  apply (f_equal (@rev char)) in H. rewrite rev_involutive, rev_unit in H.
  eapply drop_while_head, H.
Qed.

Lemma rstrip_fixed init c :
  isspace U c = false -> rstrip U (init ++ [c]) = init ++ [c].
Proof.
  intros E. unfold rstrip, lstrip. rewrite rev_unit, drop_while_fixed by exact E.
  rewrite <- rev_unit, rev_involutive. reflexivity.
Qed.

(** [strip] returns the text between the leading and the trailing white
    space. *)
Lemma strip_trimmed s : Spec.trimmed U s (strip U s).
Proof.
  unfold strip.
  destruct (drop_while_split (isspace U) s) as [l [Hl Hall]].
  destruct (rstrip_split (lstrip U s)) as [r [Hr Hallr]].
  exists l, r. repeat split; try assumption.
  - rewrite <- Hr. exact Hl.
  - intros c rest E. rewrite E in Hr. simpl in Hr.
    eapply drop_while_head. exact Hr.
  - intros init c. apply rstrip_last.
Qed.

Lemma strip_fixed s :
  (forall c rest, s = c :: rest -> isspace U c = false) ->
  (forall init c, s = init ++ [c] -> isspace U c = false) ->
  strip U s = s.
Proof.
  intros Hhd Hlast. unfold strip.
  destruct s as [|c rest]; [reflexivity|].
  unfold lstrip. rewrite drop_while_fixed by (eapply Hhd; reflexivity).
  destruct (exists_last (l := c :: rest)) as [init [d E]]; [discriminate|].
  rewrite E. apply rstrip_fixed. eapply Hlast, E.
Qed.

Lemma strip_all_space s : forallb (isspace U) s = true -> strip U s = [].
Proof.
  intros H. unfold strip, lstrip. rewrite drop_while_all by exact H. reflexivity.
Qed.

Lemma strip_incl s c : In c (strip U s) -> In c s.
Proof.
  destruct (strip_trimmed s) as [l [r [E _]]]. intros H.
  rewrite E. apply in_or_app; right. apply in_or_app; left. exact H.
Qed.

Lemma strip_length s : List.length (strip U s) <= List.length s.
Proof.
  destruct (strip_trimmed s) as [l [r [E _]]].
  rewrite E at 2. rewrite !length_app. lia.
Qed.

Lemma drop_while_app_all cls l x :
  forallb cls l = true -> drop_while cls (l ++ x) = drop_while cls x.
Proof.
  induction l as [|a l IH]; simpl; [reflexivity|].
  intros H. apply andb_true_iff in H as [-> H]. apply IH, H.
Qed.

(** Trimming has one result, the one [strip] returns. *)
Lemma strip_of_trimmed s t : Spec.trimmed U s t -> strip U s = t.
Proof.
  intros (l & r & E & Hl & Hr & Hhd & Hlast). subst s.
  unfold strip, lstrip. rewrite drop_while_app_all by exact Hl.
  destruct t as [|c rest].
  - cbn [app]. rewrite drop_while_all by exact Hr. reflexivity.
  - cbn [app]. rewrite drop_while_fixed by (eapply Hhd; reflexivity).
    change (c :: rest ++ r) with ((c :: rest) ++ r).
    destruct (exists_last (l := c :: rest)) as [init [d Ed]]; [discriminate|].
    rewrite Ed in *.
    unfold rstrip, lstrip.
    rewrite rev_app_distr, drop_while_app_all by (apply forallb_rev, Hr).
    rewrite rev_unit, drop_while_fixed by (eapply Hlast; reflexivity).
    rewrite <- rev_unit, rev_involutive. reflexivity.
Qed.

End Strip.

(** ** Lowercasing *)

Section Lower.
Variable U : db.
Hypothesis laws : db_laws U.

Lemma stable_tolower c :
  changes_when_lowercased U c = false ->
  (c =? CAPITAL_SIGMA)%N = false /\ tolower U c = [c].
Proof.
  unfold changes_when_lowercased, eqb_str. intros H.
  apply orb_false_iff in H as [H1 H2]. split; [exact H1|].
  destruct (list_eq_dec N.eq_dec (tolower U c) [c]); [assumption | discriminate].
Qed.

(** [lower] returns code points that lowercasing leaves alone. *)
Lemma lower_from_stable s :
  forall before c, In c (lower_from U before s) -> changes_when_lowercased U c = false.
Proof.
  induction s as [|a rest IH]; intros before c H; simpl in H; [contradiction|].
  apply in_app_or in H as [H|H]; [|eapply IH, H].
  destruct (a =? CAPITAL_SIGMA)%N eqn:E.
  - destruct H as [H|[]]. subst c.
    destruct (final_sigma U before rest);
      [apply (final_sigma_stable laws) | apply (small_sigma_stable laws)].
  - eapply (tolower_stable laws); eassumption.
Qed.

Lemma lower_from_fixed s :
  (forall c, In c s -> changes_when_lowercased U c = false) ->
  forall before, lower_from U before s = s.
Proof.
  induction s as [|a rest IH]; intros H before; simpl; [reflexivity|].
  destruct (stable_tolower a (H a (or_introl eq_refl))) as [-> ->].
  simpl. f_equal. apply IH. intros c Hc. apply H. right; exact Hc.
Qed.

Lemma lower_space s :
  forallb (isspace U) s = true -> lower U s = s.
Proof.
  intros H. apply lower_from_fixed. intros c Hc.
  apply (space_uncased laws). rewrite forallb_forall in H. apply H, Hc.
Qed.

End Lower.

(** ** What the steps keep *)

Section Keeps.
Variable U : db.

Lemma filter_all (f : char -> bool) l :
  (forall c, In c l -> f c = true) -> filter f l = l.
Proof.
  induction l as [|a l IH]; intros H; simpl; [reflexivity|].
  rewrite (H a (or_introl eq_refl)). f_equal. apply IH.
  intros c Hc; apply H; right; exact Hc.
Qed.

Lemma skip_run_incl s c : In c (Spec.skip_run U (skipn 4 s)) -> In c s.
Proof.
  unfold Spec.skip_run. intros H.
  destruct (drop_while_split (fun c => negb (isspace U c)) (skipn 4 s)) as [l [E _]].
  rewrite <- (firstn_skipn 4 s), E.
  apply in_or_app; right. apply in_or_app; right. exact H.
Qed.

Lemma remove_urls_incl s : forall c, In c (Spec.remove_urls U s) -> In c s.
Proof.
  induction s as [s IH] using str_length_ind. intros c.
  destruct s as [|a rest]; [intros []|].
  rewrite remove_urls_cons.
  pose proof (skip_run_length U (a :: rest)) as Hl. cbn [List.length] in Hl.
  destruct (Spec.starts_url U (a :: rest)).
  - intros H. apply skip_run_incl. apply IH; [cbn [List.length]; lia | exact H].
  - intros [H|H]; [left; exact H | right].
    apply IH; [simpl; lia | exact H].
Qed.

Lemma remove_urls_length s : List.length (Spec.remove_urls U s) <= List.length s.
Proof.
  induction s as [s IH] using str_length_ind.
  destruct s as [|a rest]; [simpl; lia|].
  rewrite remove_urls_cons.
  pose proof (skip_run_length U (a :: rest)) as Hl. cbn [List.length] in *.
  destruct (Spec.starts_url U (a :: rest)).
  - etransitivity; [apply IH; cbn [List.length]; lia | lia].
  - cbn [List.length]. apply le_n_S, IH. lia.
Qed.

Lemma remove_urls_no_url s :
  Spec.contains_url U s = false -> Spec.remove_urls U s = s.
Proof.
  induction s as [|a rest IH]; [reflexivity|].
  cbn [Spec.contains_url]. intros H. apply orb_false_iff in H as [H1 H2].
  rewrite remove_urls_cons, H1. f_equal. apply IH, H2.
Qed.

Lemma remove_urls_shrinks s :
  Spec.contains_url U s = true ->
  List.length (Spec.remove_urls U s) < List.length s.
Proof.
  induction s as [|a rest IH]; [discriminate|].
  cbn [Spec.contains_url]. intros H. rewrite remove_urls_cons.
  pose proof (skip_run_length U (a :: rest)) as Hl.
  pose proof (remove_urls_length (Spec.skip_run U (skipn 4 (a :: rest)))) as Hr.
  cbn [List.length] in *.
  destruct (Spec.starts_url U (a :: rest)).
  - lia.
  - cbn [List.length]. apply IH in H. lia.
Qed.

(** The source function is the composition of the five steps. *)
Lemma clean_text_normalize text : app.clean_text U text = Spec.normalize U text.
Proof.
  unfold app.clean_text, Spec.normalize, Spec.lowercase.
  rewrite sub_url, sub_digits, sub_punct. reflexivity.
Qed.

Lemma normalize_incl text c :
  In c (Spec.normalize U text) ->
  In c (lower U text) /\ isdecimal U c = false /\ isword U c || isspace U c = true.
Proof.
  unfold Spec.normalize, Spec.lowercase, Spec.remove_punctuation, Spec.remove_digits.
  intros H. apply strip_incl in H.
  apply filter_In in H as [H Hw]. apply filter_In in H as [H Hd].
  apply remove_urls_incl in H. apply negb_true_iff in Hd. auto.
Qed.

End Keeps.

(** ** The Basic Latin rows obey the laws *)

Lemma in_range_true lo hi c : in_range lo hi c = true <-> (lo <= c <= hi)%N.
Proof. unfold in_range. rewrite andb_true_iff, !N.leb_le. reflexivity. Qed.

Lemma in_range_false lo hi c : in_range lo hi c = false <-> (c < lo \/ hi < c)%N.
Proof. unfold in_range. rewrite andb_false_iff, !N.leb_gt. reflexivity. Qed.

Lemma eqb_str_refl s : eqb_str s s = true.
Proof. unfold eqb_str. destruct (list_eq_dec N.eq_dec s s); congruence. Qed.

Lemma eqb_str_eq s t : eqb_str s t = true <-> s = t.
Proof.
  unfold eqb_str. destruct (list_eq_dec N.eq_dec s t); split; congruence.
Qed.

Lemma basic_latin_stable d :
  in_range 65 90 d = false -> (d =? CAPITAL_SIGMA)%N = false ->
  changes_when_lowercased basic_latin d = false.
Proof.
  intros H1 H2. unfold changes_when_lowercased. rewrite H2. cbn [tolower basic_latin].
  rewrite H1, eqb_str_refl. reflexivity.
Qed.

(** In Basic Latin the code points that lowercasing changes are A to Z
    (and capital sigma, which [lower] treats by itself). *)
Lemma basic_latin_changes c :
  changes_when_lowercased basic_latin c = true <->
  (65 <= c <= 90)%N \/ c = CAPITAL_SIGMA.
Proof.
  unfold changes_when_lowercased. cbn [tolower basic_latin].
  rewrite orb_true_iff, N.eqb_eq, negb_true_iff.
  destruct (in_range 65 90 c) eqn:E.
  - apply in_range_true in E. split; [intros _; left; exact E|]. intros _. right.
    unfold eqb_str. destruct (list_eq_dec N.eq_dec [(c + 32)%N] [c]) as [e|]; [|reflexivity].
    injection e as e. lia.
  - apply in_range_false in E. rewrite eqb_str_refl.
    split; intros [H|H]; try discriminate; try lia; left; exact H.
Qed.

Lemma basic_latin_laws : db_laws basic_latin.
Proof.
  split.
  - intros c d Hc Hd. cbn [tolower basic_latin] in Hd.
    destruct (in_range 65 90 c) eqn:E; destruct Hd as [<-|[]].
    + apply in_range_true in E. apply basic_latin_stable.
      * apply in_range_false. lia.
      * apply N.eqb_neq. unfold CAPITAL_SIGMA. lia.
    + apply basic_latin_stable; assumption.
  - reflexivity.
  - reflexivity.
  - intros c H. cbn [isspace basic_latin] in H.
    apply orb_true_iff in H. rewrite !in_range_true in H.
    apply basic_latin_stable.
    + apply in_range_false. lia.
    + apply N.eqb_neq. unfold CAPITAL_SIGMA. lia.
Qed.

(** ** The shape of a normalised string *)

Section Canonical.
Variable U : db.
Hypothesis laws : db_laws U.

Lemma clean_text_chars text c :
  In c (app.clean_text U text) ->
  changes_when_lowercased U c = false
  /\ isdecimal U c = false
  /\ isword U c || isspace U c = true.
Proof.
  rewrite clean_text_normalize. intros H.
  apply normalize_incl in H as (Hl & Hd & Hw).
  repeat split; try assumption.
  eapply lower_from_stable; eassumption.
Qed.

Lemma clean_text_ends text :
  (forall c rest, app.clean_text U text = c :: rest -> isspace U c = false)
  /\ (forall init c, app.clean_text U text = init ++ [c] -> isspace U c = false).
Proof.
  rewrite clean_text_normalize.
  destruct (strip_trimmed U
    (Spec.remove_punctuation U (Spec.remove_digits U
       (Spec.remove_urls U (Spec.lowercase U text)))))
    as (l & r & _ & _ & _ & Hhd & Hlast).
  split; assumption.
Qed.

(** On a normalised string only the URL step and the trimming can still
    act. *)
Lemma clean_text_twice text :
  app.clean_text U (app.clean_text U text) =
  strip U (Spec.remove_urls U (app.clean_text U text)).
Proof.
  set (y := app.clean_text U text).
  rewrite (clean_text_normalize U y).
  unfold Spec.normalize, Spec.lowercase, lower.
  rewrite lower_from_fixed
    by (exact laws || (intros c Hc; apply (clean_text_chars text), Hc)).
  unfold Spec.remove_digits, Spec.remove_punctuation.
  rewrite (filter_all (fun c => negb (isdecimal U c))).
  2:{ intros c Hc. apply remove_urls_incl in Hc.
      apply (clean_text_chars text) in Hc as (_ & -> & _). reflexivity. }
  rewrite filter_all; [reflexivity|].
  intros c Hc. apply remove_urls_incl in Hc.
  apply (clean_text_chars text) in Hc as (_ & _ & Hw). exact Hw.
Qed.

(** A second normalisation changes nothing exactly when no URL is left. *)
Lemma clean_text_again text :
  app.clean_text U (app.clean_text U text) = app.clean_text U text
  <-> Spec.contains_url U (app.clean_text U text) = false.
Proof.
  rewrite clean_text_twice.
  set (y := app.clean_text U text).
  split.
  - intros H. destruct (Spec.contains_url U y) eqn:E; [|reflexivity].
    apply remove_urls_shrinks in E.
    pose proof (strip_length U (Spec.remove_urls U y)) as Hs.
    rewrite H in Hs. lia.
  - intros H. rewrite remove_urls_no_url by exact H.
    apply strip_fixed; apply (clean_text_ends text).
Qed.

End Canonical.

(** * The claims *)

(** C1.  For every input string, [clean_text] (in both files) applies these
    steps to the whole string, in this order: lowercase; cut out every URL,
    that is [http] with the maximal run of non-white-space characters that
    follows it at once; remove every digit; remove every character that is
    neither a word character nor white space; trim the leading and trailing
    white space, the white space inside being kept.  Every string is a valid
    input, the empty one too, which gives the empty string. *)
Theorem clean_text_applies_the_five_steps :
  forall (U : db) (text : str),
    let s1 := Spec.lowercase U text in
    let s2 := Spec.remove_urls U s1 in
    let s3 := Spec.remove_digits U s2 in
    let s4 := Spec.remove_punctuation U s3 in
    Spec.trimmed U s4 (app.clean_text U text)
    /\ Spec.trimmed U s4 (train_model.clean_text U text)
    /\ app.clean_text U text = Spec.normalize U text
    /\ train_model.clean_text U text = Spec.normalize U text
    /\ app.clean_text U [] = []
    /\ train_model.clean_text U [] = [].
Proof.
  intros U text s1 s2 s3 s4.
  change (train_model.clean_text U) with (app.clean_text U).
  rewrite clean_text_normalize.
  repeat split; try reflexivity; apply strip_trimmed.
Qed.

(** C2.  The normaliser of the training pipeline and the normaliser of the
    inference service return the same string on every input. *)
Theorem train_and_app_clean_text_agree :
  forall (U : db) (text : str),
    train_model.clean_text U text = app.clean_text U text.
Proof.
  intros U text. unfold train_model.clean_text, app.clean_text. reflexivity.
Qed.

(** C10, amended.  For every input string, the string [clean_text] returns
    contains no character that lowercasing would change, no digit character,
    no character other than word characters and white space, and neither
    begins nor ends with white space. *)
Theorem clean_text_canonical_form :
  forall (U : db), db_laws U ->
  forall (text : str),
    let out := app.clean_text U text in
    train_model.clean_text U text = out
    /\ (forall c, In c out ->
          changes_when_lowercased U c = false
          /\ isdecimal U c = false
          /\ isword U c || isspace U c = true)
    /\ (forall c rest, out = c :: rest -> isspace U c = false)
    /\ (forall init c, out = init ++ [c] -> isspace U c = false).
Proof.
  intros U laws text out. subst out. split; [reflexivity|]. split.
  - intros c. apply clean_text_chars, laws.
  - apply clean_text_ends.
Qed.

Lemma clean_text_canonical_form_witness :
  let out := app.clean_text basic_latin (py "  Hello, World 42! ") in
  out = py "hello world"
  /\ (forall c, In c out ->
       changes_when_lowercased basic_latin c = false
       /\ isdecimal basic_latin c = false
       /\ isword basic_latin c || isspace basic_latin c = true)
  /\ (forall c rest, out = c :: rest -> isspace basic_latin c = false)
  /\ (forall init c, out = init ++ [c] -> isspace basic_latin c = false).
Proof.
  split; [vm_compute; reflexivity|].
  apply (proj2 (clean_text_canonical_form basic_latin_laws (py "  Hello, World 42! "))).
Defined.

(** C3, as the specification states it, fails: normalising twice is not
    normalising once.  Removing a digit or a punctuation mark can bring the
    letters of [http] together after the URL step has passed, and the second
    application then cuts that text out. *)
Lemma clean_text_not_idempotent :
  db_laws basic_latin
  /\ app.clean_text basic_latin (py "ht5tpx") = py "httpx"
  /\ app.clean_text basic_latin (py "httpx") = []
  /\ app.clean_text basic_latin (app.clean_text basic_latin (py "ht5tpx"))
     <> app.clean_text basic_latin (py "ht5tpx").
Proof.
  split; [exact basic_latin_laws|].
  split; [vm_compute; reflexivity|].
  split; [vm_compute; reflexivity|].
  vm_compute; discriminate.
Qed.

(** C3, amended.  Normalising the output of [clean_text] again returns it
    unchanged exactly when that output contains no URL, that is no [http]
    followed at once by a character that is not white space. *)
Theorem clean_text_idempotent_iff_no_url :
  forall (U : db), db_laws U ->
  forall (text : str),
    (app.clean_text U (app.clean_text U text) = app.clean_text U text
     <-> Spec.contains_url U (app.clean_text U text) = false)
    /\ (train_model.clean_text U (train_model.clean_text U text)
          = train_model.clean_text U text
        <-> Spec.contains_url U (train_model.clean_text U text) = false).
Proof.
  intros U laws text.
  change (train_model.clean_text U) with (app.clean_text U).
  split; apply clean_text_again, laws.
Qed.

Lemma clean_text_idempotent_iff_no_url_witness :
  db_laws basic_latin
  /\ Spec.contains_url basic_latin
       (app.clean_text basic_latin (py "Read HTTPS://a.b/c, then ht5tp 7 times!")) = false
  /\ app.clean_text basic_latin
       (app.clean_text basic_latin (py "Read HTTPS://a.b/c, then ht5tp 7 times!"))
     = app.clean_text basic_latin (py "Read HTTPS://a.b/c, then ht5tp 7 times!").
Proof.
  split; [exact basic_latin_laws|].
  split; [vm_compute; reflexivity|].
  apply (proj1 (clean_text_idempotent_iff_no_url basic_latin_laws _)).
  vm_compute; reflexivity.
Defined.

(** C8.  When a persisted artifact (model or vectoriser) is missing or
    corrupt, [load_model] fails: it raises, after an error message on the
    page when the file is missing, and returns no model, neither partial nor
    degraded.  When both artifacts load, it returns the pair
    (model, vectoriser). *)
Theorem load_model_all_or_nothing :
  forall (Obj : Type) (d : joblib.disk Obj) (pg : streamlit.page),
    let fm := d "model/model.pkl"%string in
    let fv := d "model/vectorizer.pkl"%string in
    (forall m v, fm = joblib.Pickled m -> fv = joblib.Pickled v ->
       app.load_model d pg = (streamlit.Return (m, v), pg))
    /\ (joblib.readable fm && joblib.readable fv = false ->
          app.load_model d pg
            = (streamlit.Raise streamlit.StopException,
               pg ++ [app.model_files_not_found])
          \/ app.load_model d pg = (streamlit.Raise streamlit.UnpicklingError, pg))
    /\ (forall m v pg', app.load_model d pg = (streamlit.Return (m, v), pg') ->
          fm = joblib.Pickled m /\ fv = joblib.Pickled v /\ pg' = pg).
Proof.
  intros Obj d pg fm fv. subst fm fv.
  unfold app.load_model, streamlit.try_except_FileNotFoundError, streamlit.bind,
    joblib.load, streamlit.ret, streamlit.error, streamlit.stop.
  destruct (d "model/model.pkl"%string) as [| |m0];
    [| |destruct (d "model/vectorizer.pkl"%string) as [| |v0]];
    cbn [joblib.readable andb]; repeat split;
    try (intros; discriminate); try (intros; left; reflexivity);
    try (intros; right; reflexivity).
  - intros m v Hm Hv. injection Hm as ->. injection Hv as ->. reflexivity.
  - injection H as -> _ _. reflexivity.
  - injection H as _ -> _. reflexivity.
  - injection H as _ _ ->. reflexivity.
Qed.

Lemma load_model_all_or_nothing_witness :
  let d := fun path : string =>
             if String.eqb path "model/model.pkl" then joblib.Pickled 7 else joblib.Missing in
  app.load_model d []
    = (streamlit.Raise streamlit.StopException, [app.model_files_not_found])
  \/ app.load_model d [] = (streamlit.Raise streamlit.UnpicklingError, []).
Proof.
  intros d.
  apply (proj1 (proj2 (load_model_all_or_nothing d []))).
  reflexivity.
Defined.

(** ** The classifier *)

Section Classifier.
Import sklearn.
Local Open Scope R_scope.

Lemma sigmoid_0 : sigmoid 0 = 1 / 2.
Proof. unfold sigmoid. rewrite Ropp_0, exp_0. lra. Qed.

Lemma sigmoid_times z : sigmoid z * (1 + exp (- z)) = 1.
Proof. unfold sigmoid. pose proof (exp_pos (- z)). field. lra. Qed.

Lemma sigmoid_bounds z : 0 < sigmoid z < 1.
Proof.
  pose proof (exp_pos (- z)) as He. pose proof (sigmoid_times z) as Hx.
  assert (0 < sigmoid z).
  { unfold sigmoid. apply Rdiv_lt_0_compat; lra. }
  split; [assumption | nra].
Qed.

Lemma sigmoid_gt_half z : 1 / 2 < sigmoid z <-> 0 < z.
Proof.
  pose proof (exp_pos (- z)) as He. pose proof (sigmoid_times z) as Hx.
  pose proof (sigmoid_bounds z) as Hb.
  split; intros H.
  - assert (E : exp (- z) < exp 0) by (rewrite exp_0; nra).
    apply exp_lt_inv in E. lra.
  - assert (E : exp (- z) < exp 0) by (apply exp_increasing; lra).
    rewrite exp_0 in E. nra.
Qed.

Lemma label_real z : label_of_score z = train_model.real_label <-> 0 < z.
Proof.
  unfold label_of_score, train_model.real_label, train_model.fake_label.
  destruct (Rlt_dec 0 z); split; intros H; try reflexivity; try assumption;
    try discriminate; contradiction.
Qed.

Lemma label_fake z : label_of_score z = train_model.fake_label <-> z <= 0.
Proof.
  unfold label_of_score, train_model.real_label, train_model.fake_label.
  destruct (Rlt_dec 0 z); split; intros H; try reflexivity; try discriminate; lra.
Qed.

Lemma dot_zeros w n : dot w (repeat 0 n) = 0.
Proof.
  revert n; induction w as [|a w IH]; intros [|n]; simpl; try reflexivity.
  rewrite IH. lra.
Qed.

Lemma score_zeros st n : score st (repeat 0 n) = bias st.
Proof. unfold score. rewrite dot_zeros. lra. Qed.

End Classifier.

(** C4.  A feature vector whose linear score is exactly 0 has
    p(real) = p(fake) = 0.5 and is labelled FAKE (class 0); in general the
    label is REAL (class 1) exactly when p(real) > 0.5, and FAKE otherwise,
    the tie included. *)
Theorem tie_is_classified_fake :
  forall (st : sklearn.ClassifierState) (x : sklearn.vector),
    let p_real := sklearn.sigmoid (sklearn.score st x) in
    sklearn.predict_proba st [x] = [[(1 - p_real)%R; p_real]]
    /\ (sklearn.score st x = 0%R ->
          sklearn.predict st [x] = [train_model.fake_label]
          /\ sklearn.predict_proba st [x] = [[(1 / 2)%R; (1 / 2)%R]])
    /\ (sklearn.predict st [x] = [train_model.real_label] <-> (p_real > 1 / 2)%R)
    /\ (sklearn.predict st [x] = [train_model.fake_label] <-> (p_real <= 1 / 2)%R)
    /\ train_model.fake_label = 0 /\ train_model.real_label = 1.
Proof.
  intros st x p_real. subst p_real.
  unfold sklearn.predict, sklearn.predict_proba. cbn [map].
  split; [reflexivity|]. split.
  - intros ->. split.
    + f_equal. apply label_fake. lra.
    + rewrite sigmoid_0. replace (1 - 1 / 2)%R with (1 / 2)%R by lra. reflexivity.
  - split; [|split; [|split; reflexivity]].
    + unfold Rgt. rewrite sigmoid_gt_half, <- label_real.
      split; [intros H; injection H as H; exact H | intros ->; reflexivity].
    + assert (E : (sklearn.sigmoid (sklearn.score st x) <= 1 / 2
                   <-> sklearn.score st x <= 0)%R).
      { pose proof (sigmoid_gt_half (sklearn.score st x)). split; intros; lra. }
      rewrite E, <- label_fake.
      split; [intros H; injection H as H; exact H | intros ->; reflexivity].
Qed.

Lemma tie_is_classified_fake_witness :
  let st := {| sklearn.weights := [1%R; (-1)%R]; sklearn.bias := 0%R |} in
  let x := [2%R; 2%R] in
  sklearn.score st x = 0%R
  /\ sklearn.predict st [x] = [train_model.fake_label]
  /\ sklearn.predict_proba st [x] = [[(1 / 2)%R; (1 / 2)%R]].
Proof.
  intros st x.
  assert (E : sklearn.score st x = 0%R) by (unfold sklearn.score; simpl; lra).
  split; [exact E|].
  apply (proj1 (proj2 (tie_is_classified_fake st x))). exact E.
Defined.

(** ** The vectoriser *)

Section VectorizerFacts.
Import sklearn.
Variable U : db.

Lemma mem_In t l : mem t l = true <-> In t l.
Proof.
  unfold mem. rewrite existsb_exists. split.
  - intros [x [Hx E]]. apply eqb_str_eq in E. subst x. exact Hx.
  - intros H. exists t. split; [exact H | apply eqb_str_refl].
Qed.

Lemma term_frequency_filter (f : str -> bool) t tokens :
  f t = true -> term_frequency t (filter f tokens) = term_frequency t tokens.
Proof.
  intros Ht. unfold term_frequency.
  induction tokens as [|a tokens IH]; [reflexivity|]. cbn [filter].
  destruct (f a) eqn:Ea.
  - destruct (list_eq_dec N.eq_dec a t) as [->|Hne].
    + rewrite !count_occ_cons_eq by reflexivity. f_equal. exact IH.
    + rewrite !count_occ_cons_neq by exact Hne. exact IH.
  - rewrite count_occ_cons_neq by (intros ->; congruence). exact IH.
Qed.

Lemma weigh_length tokens vocab :
  forall idf, List.length (weigh tokens vocab idf) = List.length vocab.
Proof.
  induction vocab as [|t vocab IH]; intros idf; simpl; [reflexivity|].
  f_equal. apply IH.
Qed.

(** No token of the text in the vocabulary: every entry is zero. *)
Lemma weigh_zeros tokens vocab :
  (forall t, In t tokens -> ~ In t vocab) ->
  forall idf, weigh tokens vocab idf = repeat 0%R (List.length vocab).
Proof.
  intros H. induction vocab as [|t vocab IH]; intros idf; simpl; [reflexivity|].
  f_equal.
  - unfold term_frequency.
    replace (count_occ (list_eq_dec N.eq_dec) tokens t) with 0%nat.
    + simpl. apply Rmult_0_l.
    + symmetry. apply count_occ_not_In. intros Hin. apply (H t Hin). left; reflexivity.
  - apply IH. intros t' Hin Hv. apply (H t' Hin). right; exact Hv.
Qed.

(** The tokens outside the vocabulary can be left out. *)
Lemma weigh_in_vocabulary tokens vocab vocab' :
  (forall t, In t vocab' -> In t vocab) ->
  forall idf,
    weigh (filter (fun t => mem t vocab) tokens) vocab' idf = weigh tokens vocab' idf.
Proof.
  induction vocab' as [|t vocab' IH]; intros H idf; simpl; [reflexivity|].
  f_equal.
  - f_equal. f_equal. apply (term_frequency_filter (fun t => mem t vocab)).
    apply mem_In, H. left; reflexivity.
  - apply IH. intros t' Ht'. apply H. right; exact Ht'.
Qed.

(** A document whose feature vector is zero is scored by the bias. *)
Lemma predict_news_zero_row text vs cs n :
  transform U vs [app.clean_text U text] = [repeat 0%R n] ->
  app.predict_news U text (LogisticRegression cs) (TfidfVectorizer U vs)
  = Some (label_of_score (bias cs),
          [(1 - sigmoid (bias cs))%R; sigmoid (bias cs)]).
Proof.
  intros H. unfold app.predict_news.
  cbn [app.transform app.predict app.predict_proba TfidfVectorizer LogisticRegression].
  rewrite H. unfold predict, predict_proba. cbn [map nth_error].
  rewrite score_zeros. reflexivity.
Qed.

Lemma clean_text_blank (laws : db_laws U) text :
  forallb (isspace U) text = true -> app.clean_text U text = [].
Proof.
  intros H. rewrite clean_text_normalize.
  unfold Spec.normalize, Spec.lowercase. rewrite (lower_space laws) by exact H.
  apply strip_all_space. rewrite forallb_forall in *. intros c Hc.
  unfold Spec.remove_punctuation, Spec.remove_digits in Hc.
  apply filter_In in Hc as [Hc _]. apply filter_In in Hc as [Hc _].
  apply remove_urls_incl in Hc. apply H, Hc.
Qed.

End VectorizerFacts.

(** C6.  A text all of whose tokens are outside the learned vocabulary is
    transformed into the all-zero feature vector, and its prediction is the
    decision the bias alone gives.  Tokens outside the vocabulary contribute
    no feature, and the vector always has one entry per vocabulary token:
    the vocabulary does not grow at inference time. *)
Theorem out_of_vocabulary_text_gets_bias_decision :
  forall (U : db) (vs : sklearn.VectorizerState) (cs : sklearn.ClassifierState),
    (forall tokens,
       sklearn.weigh tokens (sklearn.vocabulary vs) (sklearn.idf vs)
       = sklearn.weigh
           (filter (fun t => sklearn.mem t (sklearn.vocabulary vs)) tokens)
           (sklearn.vocabulary vs) (sklearn.idf vs))
    /\ (forall docs row,
          In row (sklearn.transform U vs docs) ->
          List.length row = List.length (sklearn.vocabulary vs))
    /\ (forall text,
          (forall tok,
             In tok (sklearn.analyze U vs (app.clean_text U text)) ->
             ~ In tok (sklearn.vocabulary vs)) ->
          sklearn.transform U vs [app.clean_text U text]
            = [repeat 0%R (List.length (sklearn.vocabulary vs))]
          /\ app.predict_news U text
               (sklearn.LogisticRegression cs) (sklearn.TfidfVectorizer U vs)
             = Some (sklearn.label_of_score (sklearn.bias cs),
                     [(1 - sklearn.sigmoid (sklearn.bias cs))%R;
                      sklearn.sigmoid (sklearn.bias cs)])).
Proof.
  intros U vs cs. split; [|split].
  - intros tokens. symmetry. apply weigh_in_vocabulary. auto.
  - intros docs row H. unfold sklearn.transform in H.
    apply in_map_iff in H as [doc [<- _]]. apply weigh_length.
  - intros text H.
    assert (E : sklearn.transform U vs [app.clean_text U text]
                = [repeat 0%R (List.length (sklearn.vocabulary vs))]).
    { unfold sklearn.transform. cbn [map]. f_equal. apply weigh_zeros, H. }
    split; [exact E|]. eapply predict_news_zero_row, E.
Qed.

Lemma out_of_vocabulary_text_gets_bias_decision_witness :
  let vs := {| sklearn.vocabulary := [py "news"; py "fake"];
               sklearn.idf := [1%R; 2%R];
               sklearn.stop_words := [py "the"] |} in
  let cs := {| sklearn.weights := [3%R; (-4)%R]; sklearn.bias := (1 / 4)%R |} in
  let text := py "The QUICK fox, 42!" in
  sklearn.analyze basic_latin vs (app.clean_text basic_latin text)
    = [py "quick"; py "fox"]
  /\ sklearn.transform basic_latin vs [app.clean_text basic_latin text]
     = [[0%R; 0%R]]
  /\ app.predict_news basic_latin text
       (sklearn.LogisticRegression cs) (sklearn.TfidfVectorizer basic_latin vs)
     = Some (sklearn.label_of_score (1 / 4)%R,
             [(1 - sklearn.sigmoid (1 / 4))%R; sklearn.sigmoid (1 / 4)%R]).
Proof.
  intros vs cs text.
  assert (A : sklearn.analyze basic_latin vs (app.clean_text basic_latin text)
              = [py "quick"; py "fox"]) by (vm_compute; reflexivity).
  split; [exact A|].
  apply (proj2 (proj2 (out_of_vocabulary_text_gets_bias_decision basic_latin vs cs)) text).
  intros tok Hin. rewrite A in Hin.
  destruct Hin as [<-|[<-|[]]]; intros [E|[E|[]]]; vm_compute in E; discriminate.
Defined.

(** C7.  An empty or white-space-only text is not rejected by
    [predict_news]: it normalises to the empty string, which is vectorised
    to the all-zero vector, and a prediction comes back with both
    probabilities, which sum to 1. *)
Theorem blank_text_is_predicted :
  forall (U : db), db_laws U ->
  forall (vs : sklearn.VectorizerState) (cs : sklearn.ClassifierState) (text : str),
    forallb (isspace U) text = true ->
    app.clean_text U text = []
    /\ sklearn.transform U vs [app.clean_text U text]
       = [repeat 0%R (List.length (sklearn.vocabulary vs))]
    /\ exists label p_fake p_real,
         app.predict_news U text
           (sklearn.LogisticRegression cs) (sklearn.TfidfVectorizer U vs)
         = Some (label, [p_fake; p_real])
         /\ (p_fake + p_real = 1)%R
         /\ (label = train_model.fake_label \/ label = train_model.real_label).
Proof.
  intros U laws vs cs text H.
  pose proof (clean_text_blank laws text H) as E.
  assert (T : sklearn.transform U vs [app.clean_text U text]
              = [repeat 0%R (List.length (sklearn.vocabulary vs))]).
  { rewrite E. unfold sklearn.transform. cbn [map]. f_equal.
    apply weigh_zeros. intros t []. }
  split; [exact E|]. split; [exact T|].
  exists (sklearn.label_of_score (sklearn.bias cs)),
         (1 - sklearn.sigmoid (sklearn.bias cs))%R,
         (sklearn.sigmoid (sklearn.bias cs)).
  split; [eapply predict_news_zero_row, T|]. split; [lra|].
  unfold sklearn.label_of_score. destruct (Rlt_dec 0 (sklearn.bias cs)); auto.
Qed.

Lemma blank_text_is_predicted_witness :
  let vs := {| sklearn.vocabulary := [py "news"; py "fake"];
               sklearn.idf := [1%R; 2%R];
               sklearn.stop_words := [py "the"] |} in
  let cs := {| sklearn.weights := [3%R; (-4)%R]; sklearn.bias := (1 / 4)%R |} in
  let text := [32; 9; 10; 32]%N in
  app.clean_text basic_latin text = []
  /\ sklearn.transform basic_latin vs [app.clean_text basic_latin text] = [[0%R; 0%R]]
  /\ exists label p_fake p_real,
       app.predict_news basic_latin text
         (sklearn.LogisticRegression cs) (sklearn.TfidfVectorizer basic_latin vs)
       = Some (label, [p_fake; p_real])
       /\ (p_fake + p_real = 1)%R
       /\ (label = train_model.fake_label \/ label = train_model.real_label).
Proof.
  intros vs cs text.
  apply (blank_text_is_predicted basic_latin_laws vs cs text).
  reflexivity.
Defined.

(** * Further properties of the code *)

(** ** The normaliser only deletes *)

Section Subseq.
Context {A : Type}.

Lemma subseq_refl (s : list A) : subseq s s.
Proof. induction s; constructor; assumption. Qed.

Lemma subseq_trans (a b c : list A) : subseq a b -> subseq b c -> subseq a c.
Proof.
  intros Hab Hbc. revert a Hab.
  induction Hbc as [|x t s Hts IH|x t s Hts IH]; intros a Hab.
  - exact Hab.
  - inversion Hab; subst.
    + apply subseq_keep, IH. assumption.
    + apply subseq_drop, IH. assumption.
  - apply subseq_drop, IH, Hab.
Qed.

Lemma subseq_nil_l (s : list A) : subseq [] s.
Proof. induction s; constructor; assumption. Qed.

Lemma subseq_app_r (l s : list A) : subseq s (l ++ s).
Proof. induction l; simpl; [apply subseq_refl | apply subseq_drop; assumption]. Qed.

Lemma subseq_app_l (s r : list A) : subseq s (s ++ r).
Proof. induction s; simpl; [apply subseq_nil_l | apply subseq_keep; assumption]. Qed.

Lemma subseq_filter (f : A -> bool) (s : list A) : subseq (filter f s) s.
Proof.
  induction s as [|c s IH]; simpl; [constructor|].
  destruct (f c); constructor; assumption.
Qed.

Lemma subseq_length (t s : list A) : subseq t s -> List.length t <= List.length s.
Proof. induction 1; simpl; lia. Qed.

Lemma subseq_In (t s : list A) x : subseq t s -> In x t -> In x s.
Proof.
  induction 1 as [|c t s H IH|c t s H IH]; simpl; intros Hx; auto.
  destruct Hx as [->|Hx]; auto.
Qed.

End Subseq.

Section Deletes.
Variable U : db.

Lemma subseq_drop_while cls (s : str) : subseq (drop_while cls s) s.
Proof.
  destruct (drop_while_split cls s) as [l [E _]].
  rewrite E at 2. apply subseq_app_r.
Qed.

Lemma subseq_skipn n (s : str) : subseq (skipn n s) s.
Proof. rewrite <- (firstn_skipn n s) at 2. apply subseq_app_r. Qed.

Lemma subseq_remove_urls s : subseq (Spec.remove_urls U s) s.
Proof.
  induction s as [s IH] using str_length_ind.
  destruct s as [|c rest]; [constructor|].
  rewrite remove_urls_cons.
  pose proof (skip_run_length U (c :: rest)) as Hl. cbn [List.length] in Hl.
  destruct (Spec.starts_url U (c :: rest)).
  - eapply subseq_trans; [apply IH; cbn [List.length]; lia|].
    eapply subseq_trans; [apply subseq_drop_while | apply subseq_skipn].
  - apply subseq_keep, IH. simpl; lia.
Qed.

Lemma subseq_strip s : subseq (strip U s) s.
Proof.
  destruct (strip_trimmed U s) as (l & r & E & _).
  rewrite E at 2.
  eapply subseq_trans; [apply subseq_app_l | apply subseq_app_r].
Qed.

End Deletes.

(** X1.  [clean_text] only deletes characters from the lowercased text: what
    it returns is that text with some characters left out, none added, none
    moved; so it is never longer. *)
Theorem clean_text_only_deletes :
  forall (U : db) (text : str),
    subseq (app.clean_text U text) (lower U text)
    /\ List.length (app.clean_text U text) <= List.length (lower U text).
Proof.
  intros U text.
  assert (H : subseq (app.clean_text U text) (lower U text)).
  { rewrite clean_text_normalize.
    unfold Spec.normalize, Spec.lowercase, Spec.remove_punctuation, Spec.remove_digits.
    eapply subseq_trans; [apply subseq_strip|].
    eapply subseq_trans; [apply subseq_filter|].
    eapply subseq_trans; [apply subseq_filter|].
    apply subseq_remove_urls. }
  split; [exact H | apply subseq_length, H].
Qed.

(** ** Case, fixed points and empty results *)

Section MoreCanonical.
Variable U : db.
Hypothesis laws : db_laws U.

Lemma lower_lower text : lower U (lower U text) = lower U text.
Proof.
  unfold lower at 1. apply lower_from_fixed.
  intros c Hc. eapply lower_from_stable; eassumption.
Qed.

Lemma clean_text_canonical text : canonical U (app.clean_text U text).
Proof.
  split; [intros c; apply clean_text_chars, laws | apply clean_text_ends].
Qed.

Lemma clean_text_of_canonical x :
  canonical U x -> Spec.contains_url U x = false -> app.clean_text U x = x.
Proof.
  intros (Hc & Hhd & Hlast) Hu.
  rewrite clean_text_normalize.
  unfold Spec.normalize, Spec.lowercase, lower.
  rewrite lower_from_fixed by (intros c Hin; apply Hc, Hin).
  rewrite remove_urls_no_url by exact Hu.
  unfold Spec.remove_digits, Spec.remove_punctuation.
  rewrite (filter_all (fun c => negb (isdecimal U c)))
    by (intros c Hin; destruct (Hc c Hin) as (_ & -> & _); reflexivity).
  rewrite filter_all by (intros c Hin; apply Hc, Hin).
  apply strip_fixed; assumption.
Qed.

End MoreCanonical.

(** X2.  [clean_text] ignores case: a text and its lowercase form are
    normalised to the same string. *)
Theorem clean_text_ignores_case :
  forall (U : db), db_laws U ->
  forall (text : str),
    app.clean_text U (lower U text) = app.clean_text U text.
Proof.
  intros U laws text. unfold app.clean_text.
  rewrite (lower_lower laws). reflexivity.
Qed.

Lemma clean_text_ignores_case_witness :
  app.clean_text basic_latin (lower basic_latin (py "See HTTP://A.B or Call 911!"))
  = app.clean_text basic_latin (py "See HTTP://A.B or Call 911!").
Proof. apply (clean_text_ignores_case basic_latin_laws). Defined.

(** X3.  The strings [clean_text] leaves unchanged are exactly the strings
    in canonical form (nothing lowercasing would change, no digit, only
    word characters and white space, no white space at either end) that
    contain no URL. *)
Theorem clean_text_fixed_points :
  forall (U : db), db_laws U ->
  forall (x : str),
    app.clean_text U x = x
    <-> canonical U x /\ Spec.contains_url U x = false.
Proof.
  intros U laws x. split.
  - intros H. split.
    + rewrite <- H. apply clean_text_canonical, laws.
    + pose proof (clean_text_again laws x) as G.
      rewrite !H in G. apply G. reflexivity.
  - intros [Hc Hu]. apply clean_text_of_canonical; assumption.
Qed.

Lemma clean_text_fixed_points_witness :
  app.clean_text basic_latin (py "the http protocol") = py "the http protocol"
  <-> canonical basic_latin (py "the http protocol")
      /\ Spec.contains_url basic_latin (py "the http protocol") = false.
Proof. apply (clean_text_fixed_points basic_latin_laws). Defined.

(** X5.  [clean_text] returns the empty string exactly when every character
    left after lowercasing and URL removal is a digit, a punctuation mark or
    white space. *)
Theorem clean_text_empty_iff :
  forall (U : db) (text : str),
    app.clean_text U text = []
    <-> forall c, In c (Spec.remove_urls U (lower U text)) -> droppable U c = true.
Proof.
  intros U text. rewrite clean_text_normalize.
  unfold Spec.normalize, Spec.lowercase, Spec.remove_punctuation, Spec.remove_digits.
  set (u := Spec.remove_urls U (lower U text)).
  split.
  - intros H c Hc. unfold droppable.
    destruct (isdecimal U c) eqn:Ed; [reflexivity|].
    destruct (isword U c || isspace U c) eqn:Ew; [|reflexivity].
    cbn [negb orb].
    destruct (strip_trimmed U
      (filter (fun c => isword U c || isspace U c)
         (filter (fun c => negb (isdecimal U c)) u)))
      as (l & r & E & Hl & Hr & _).
    rewrite H in E. cbn [app] in E.
    assert (Hin : In c (l ++ r)).
    { rewrite <- E. apply filter_In. split; [|exact Ew].
      apply filter_In. split; [exact Hc | rewrite Ed; reflexivity]. }
    rewrite forallb_forall in Hl, Hr.
    apply in_app_or in Hin as [Hin|Hin]; auto.
  - intros H. apply strip_all_space. apply forallb_forall. intros c Hc.
    apply filter_In in Hc as [Hc Hw]. apply filter_In in Hc as [Hc Hd].
    specialize (H c Hc). unfold droppable in H.
    apply negb_true_iff in Hd. rewrite Hd, Hw in H. exact H.
Qed.

(** ** URLs and white space *)

Section UrlRuns.
Variable U : db.

Lemma skip_run_head s :
  Spec.skip_run U s = []
  \/ exists w t, Spec.skip_run U s = w :: t /\ isspace U w = true.
Proof.
  unfold Spec.skip_run.
  destruct (drop_while (fun c => negb (isspace U c)) s) as [|w t] eqn:E; [left; reflexivity|].
  right. exists w, t. split; [reflexivity|].
  apply drop_while_head in E. apply negb_false_iff in E. exact E.
Qed.

(** What is left after URL removal is empty, or begins with white space, or
    begins with the first character of the text, which starts no URL. *)
Lemma remove_urls_head s :
  Spec.remove_urls U s = []
  \/ (exists w t, Spec.remove_urls U s = w :: t /\ isspace U w = true)
  \/ (exists c rest, s = c :: rest /\ Spec.starts_url U s = false
                     /\ Spec.remove_urls U s = c :: Spec.remove_urls U rest).
Proof.
  induction s as [s IH] using str_length_ind.
  destruct s as [|c rest]; [left; reflexivity|].
  rewrite remove_urls_cons.
  pose proof (skip_run_length U (c :: rest)) as Hl. cbn [List.length] in Hl.
  destruct (Spec.starts_url U (c :: rest)) eqn:Es.
  - destruct (skip_run_head (skipn 4 (c :: rest))) as [E|(w & t & E & Hw)].
    + rewrite E. left; reflexivity.
    + destruct (IH (Spec.skip_run U (skipn 4 (c :: rest)))) as [H|[H|H]];
        [cbn [List.length]; lia | left; exact H | right; left; exact H |].
      destruct H as (c' & rest' & E' & _ & H). right; left.
      rewrite E in E'. injection E' as <- <-.
      exists w, (Spec.remove_urls U t). split; [exact H | exact Hw].
  - right; right. exists c, rest. repeat split.
Qed.

Lemma remove_urls_step s x r :
  Spec.remove_urls U s = x :: r -> isspace U x = false ->
  exists rest, s = x :: rest /\ Spec.remove_urls U rest = r.
Proof.
  intros E Hx. destruct (remove_urls_head s) as [H|[(w & t & H & Hw)|(c & rest & Hs & _ & H)]].
  - rewrite H in E; discriminate.
  - rewrite H in E. injection E as -> ->. congruence.
  - rewrite H in E. injection E as -> <-. exists rest. split; [exact Hs | reflexivity].
Qed.

Hypothesis letters : http_letters_not_space U.

Lemma starts_url_after_removal c rest :
  Spec.starts_url U (c :: Spec.remove_urls U rest) = true ->
  Spec.starts_url U (c :: rest) = true.
Proof.
  destruct letters as (_ & Ht & Hp).
  intros H.
  destruct (Spec.remove_urls U rest) as [|b [|c' [|d [|e r]]]] eqn:E;
    try discriminate H.
  cbn [Spec.starts_url] in H.
  repeat (apply andb_true_iff in H; destruct H as [H ?]).
  repeat match goal with
         | G : (_ =? _)%N = true |- _ => apply N.eqb_eq in G; subst
         end.
  match goal with G : negb _ = true |- _ => apply negb_true_iff in G; rename G into He end.
  destruct (remove_urls_step _ E Ht) as (r1 & -> & E1).
  destruct (remove_urls_step _ E1 Ht) as (r2 & -> & E2).
  destruct (remove_urls_step _ E2 Hp) as (r3 & -> & E3).
  destruct (remove_urls_step _ E3 He) as (r4 & -> & _).
  cbn [Spec.starts_url]. rewrite He. reflexivity.
Qed.

(** URL removal leaves no URL behind. *)
Lemma remove_urls_no_url_left s :
  Spec.contains_url U (Spec.remove_urls U s) = false.
Proof.
  induction s as [s IH] using str_length_ind.
  destruct s as [|c rest]; [reflexivity|].
  rewrite remove_urls_cons.
  pose proof (skip_run_length U (c :: rest)) as Hl. cbn [List.length] in Hl.
  destruct (Spec.starts_url U (c :: rest)) eqn:Es.
  - apply IH. cbn [List.length]; lia.
  - cbn [Spec.contains_url]. rewrite (IH rest) by (simpl; lia).
    rewrite orb_false_r.
    destruct (Spec.starts_url U (c :: Spec.remove_urls U rest)) eqn:E; [|reflexivity].
    apply starts_url_after_removal in E. congruence.
Qed.

Lemma starts_url_app s r :
  Spec.starts_url U s = true -> Spec.starts_url U (s ++ r) = true.
Proof.
  destruct s as [|a [|b [|c [|d [|e s]]]]]; try discriminate. intros H; exact H.
Qed.

Lemma contains_url_app_l s r :
  Spec.contains_url U s = true -> Spec.contains_url U (s ++ r) = true.
Proof.
  induction s as [|c s IH]; [discriminate|].
  intros H. change ((c :: s) ++ r) with (c :: s ++ r) in *.
  cbn [Spec.contains_url] in *.
  apply orb_true_iff in H as [H|H].
  - apply (starts_url_app _ r) in H. cbn [app] in H. rewrite H. reflexivity.
  - rewrite (IH H). apply orb_true_r.
Qed.

Lemma contains_url_app_r l s :
  Spec.contains_url U s = true -> Spec.contains_url U (l ++ s) = true.
Proof.
  intros H. induction l as [|c l IH]; [exact H|].
  cbn [app Spec.contains_url]. rewrite IH. apply orb_true_r.
Qed.

Lemma strip_no_url s :
  Spec.contains_url U s = false -> Spec.contains_url U (strip U s) = false.
Proof.
  intros H. destruct (strip_trimmed U s) as (l & r & E & _).
  destruct (Spec.contains_url U (strip U s)) eqn:C; [|reflexivity].
  apply (contains_url_app_l _ r) in C. apply (contains_url_app_r l) in C.
  rewrite <- E in C. congruence.
Qed.

(** A URL does not reach across white space. *)
Lemma starts_url_before_space a w b :
  isspace U w = true ->
  Spec.starts_url U (a ++ w :: b) = Spec.starts_url U a.
Proof.
  destruct letters as (Hh & Ht & Hp). intros Hw.
  assert (Nh : (w =? 104)%N = false)
    by (apply N.eqb_neq; intros ->; congruence).
  assert (Nt : (w =? 116)%N = false)
    by (apply N.eqb_neq; intros ->; congruence).
  assert (Np : (w =? 112)%N = false)
    by (apply N.eqb_neq; intros ->; congruence).
  destruct a as [|a1 [|a2 [|a3 [|a4 [|a5 a]]]]]; cbn [app Spec.starts_url].
  - destruct b as [|? [|? [|? [|? ?]]]]; try reflexivity. rewrite Nh. reflexivity.
  - destruct b as [|? [|? [|? ?]]]; try reflexivity.
    rewrite Nt, !andb_false_r. reflexivity.
  - destruct b as [|? [|? ?]]; try reflexivity.
    rewrite Nt, !andb_false_r. reflexivity.
  - destruct b as [|? ?]; try reflexivity.
    rewrite Np, !andb_false_r. reflexivity.
  - rewrite Hw. cbn [negb]. rewrite !andb_false_r. reflexivity.
  - reflexivity.
Qed.

Lemma skip_run_before_space x w b :
  isspace U w = true ->
  Spec.skip_run U (x ++ w :: b) = Spec.skip_run U x ++ w :: b.
Proof.
  intros Hw. unfold Spec.skip_run.
  induction x as [|c x IH]; cbn [app drop_while].
  - rewrite Hw. reflexivity.
  - destruct (isspace U c); cbn [negb]; [reflexivity | exact IH].
Qed.

Lemma remove_urls_before_space (a : str) (w : char) (b : str) :
  isspace U w = true ->
  Spec.remove_urls U (a ++ w :: b)
  = Spec.remove_urls U a ++ w :: Spec.remove_urls U b.
Proof.
  intros Hw. induction a as [a IH] using str_length_ind.
  destruct a as [|c a'].
  - cbn [app]. rewrite remove_urls_cons.
    pose proof (starts_url_before_space [] w b Hw) as E. cbn [app] in E.
    rewrite E. reflexivity.
  - change ((c :: a') ++ w :: b) with (c :: (a' ++ w :: b)).
    rewrite !remove_urls_cons.
    change (c :: (a' ++ w :: b)) with ((c :: a') ++ w :: b).
    rewrite (starts_url_before_space (c :: a') w b Hw).
    pose proof (skip_run_length U (c :: a')) as Hl. cbn [List.length] in Hl.
    destruct (Spec.starts_url U (c :: a')) eqn:Es.
    + assert (E4 : skipn 4 ((c :: a') ++ w :: b) = skipn 4 (c :: a') ++ w :: b).
      { destruct a' as [|a2 [|a3 [|a4 [|a5 a]]]]; try discriminate Es. reflexivity. }
      rewrite E4, skip_run_before_space by exact Hw.
      apply IH. cbn [List.length]; lia.
    + cbn [app]. f_equal. apply IH. simpl; lia.
Qed.

End UrlRuns.

(** X4.  Normalising reaches a fixed point at the second pass: a third
    application of [clean_text] changes nothing any more. *)
Theorem clean_text_stable_after_two_passes :
  forall (U : db), db_laws U -> http_letters_not_space U ->
  forall (text : str),
    app.clean_text U (app.clean_text U (app.clean_text U text))
    = app.clean_text U (app.clean_text U text).
Proof.
  intros U laws letters text.
  apply (clean_text_again laws).
  rewrite (clean_text_twice laws).
  apply strip_no_url, remove_urls_no_url_left, letters.
Qed.

Lemma basic_latin_letters : http_letters_not_space basic_latin.
Proof. repeat split. Qed.

Lemma clean_text_stable_after_two_passes_witness :
  app.clean_text basic_latin (app.clean_text basic_latin (py "ht5tpx ht.tphttp"))
    <> app.clean_text basic_latin (py "ht5tpx ht.tphttp")
  /\ app.clean_text basic_latin
       (app.clean_text basic_latin (app.clean_text basic_latin (py "ht5tpx ht.tphttp")))
     = app.clean_text basic_latin (app.clean_text basic_latin (py "ht5tpx ht.tphttp")).
Proof.
  split; [vm_compute; discriminate|].
  apply (clean_text_stable_after_two_passes basic_latin_laws basic_latin_letters).
Defined.

(** X6.  URL removal never reaches across white space: on two texts joined
    by a white-space character, as the training script joins title and body
    by a blank, [re.sub(r"http\S+", "", .)] acts on each part by itself. *)
Theorem url_removal_stops_at_white_space :
  forall (U : db), http_letters_not_space U ->
  forall (a b : str) (w : char),
    isspace U w = true ->
    re.sub (re.r_url U) [] (a ++ w :: b)
    = re.sub (re.r_url U) [] a ++ w :: re.sub (re.r_url U) [] b.
Proof.
  intros U letters a b w Hw. rewrite !sub_url.
  apply remove_urls_before_space; assumption.
Qed.

Lemma url_removal_stops_at_white_space_witness :
  re.sub (re.r_url basic_latin) [] (py "Read https://a.b/c" ++ 32%N :: py "Body http://d text")
  = re.sub (re.r_url basic_latin) [] (py "Read https://a.b/c")
    ++ 32%N :: re.sub (re.r_url basic_latin) [] (py "Body http://d text").
Proof.
  apply (url_removal_stops_at_white_space basic_latin_letters).
  reflexivity.
Defined.

(** ** Substrings *)

Section Substrings.

Lemma startswith_iff (p s : str) :
  Str.startswith p s = true <-> exists post, s = p ++ post.
Proof.
  revert s. induction p as [|a p IH]; intros s; cbn [Str.startswith].
  - split; [intros _; exists s; reflexivity | reflexivity].
  - destruct s as [|c s].
    + split; [discriminate | intros [post E]; discriminate E].
    + rewrite andb_true_iff, N.eqb_eq, IH. split.
      * intros [-> [post ->]]. exists post. reflexivity.
      * intros [post E]. injection E as -> ->. split; [reflexivity | exists post; reflexivity].
Qed.

Lemma contains_iff (n s : str) :
  Str.contains n s = true <-> exists pre post, s = pre ++ n ++ post.
Proof.
  induction s as [|c s IH]; cbn [Str.contains]; rewrite orb_true_iff, startswith_iff.
  - split.
    + intros [[post E]|H]; [|discriminate]. exists [], post. exact E.
    + intros (pre & post & E). left.
      destruct pre; [exists post; exact E | discriminate E].
  - rewrite IH. split.
    + intros [[post E]|(pre & post & E)].
      * exists [], post. exact E.
      * exists (c :: pre), post. rewrite E. reflexivity.
    + intros (pre & post & E). destruct pre as [|a pre].
      * left. exists post. exact E.
      * right. injection E as _ E. exists pre, post. exact E.
Qed.

(** A part of a part is a part. *)
Lemma contains_trans (a b s : str) :
  Str.contains a b = true -> Str.contains b s = true -> Str.contains a s = true.
Proof.
  rewrite !contains_iff. intros (p1 & q1 & ->) (p2 & q2 & ->).
  exists (p2 ++ p1), (q1 ++ q2). rewrite <- !app_assoc. reflexivity.
Qed.

Lemma contains_app (n pre s post : str) :
  Str.contains n s = true -> Str.contains n (pre ++ s ++ post) = true.
Proof.
  rewrite !contains_iff. intros (p & q & ->).
  exists (pre ++ p), (q ++ post). rewrite <- !app_assoc. reflexivity.
Qed.

Lemma count_single (c : char) (s : str) :
  Str.count [c] s = count_occ N.eq_dec s c.
Proof.
  unfold Str.count. induction s as [|x s IH]; [reflexivity|].
  cbn [Str.count_from Str.startswith List.length Nat.sub].
  rewrite andb_true_r.
  destruct (N.eq_dec x c) as [->|Hne].
  - rewrite N.eqb_refl, count_occ_cons_eq by reflexivity. f_equal. exact IH.
  - replace (c =? x)%N with false
      by (symmetry; apply N.eqb_neq; congruence).
    rewrite count_occ_cons_neq by exact Hne. exact IH.
Qed.

Lemma contains_three (c : char) (s : str) :
  Str.contains [c; c; c] s = true -> 3 <= count_occ N.eq_dec s c.
Proof.
  rewrite contains_iff. intros (pre & post & ->).
  rewrite !count_occ_app. cbn [count_occ].
  destruct (N.eq_dec c c); [lia | congruence].
Qed.

Lemma any_in_intro (word : string) (words : list string) (text : str) :
  In word words -> Str.contains (py word) text = true ->
  app.any_in words text = true.
Proof.
  intros Hin Hc. unfold app.any_in. apply existsb_exists.
  exists word. split; assumption.
Qed.

Lemma subseq_append_if (c : bool) (l : string) (xs ys : list string) :
  subseq xs ys -> subseq (app.append_if c l xs) (ys ++ [l]).
Proof.
  intros H. unfold app.append_if. destruct c.
  - induction H; cbn [app]; constructor; try assumption. constructor.
  - eapply subseq_trans; [exact H | apply subseq_app_l].
Qed.

Lemma In_append_if (label l : string) (c : bool) (xs : list string) :
  In label (app.append_if c l xs) <-> In label xs \/ (c = true /\ l = label).
Proof.
  unfold app.append_if. destruct c.
  - rewrite in_app_iff. cbn [In]. intuition congruence.
  - intuition congruence.
Qed.

End Substrings.

(** ** analyze_text_features *)

(** X7.  The keyword lists overlap: a text that mentions a [researcher] is
    reported with both "Expert sources" and "Evidence-based language", and a
    text with [study shows] or [research indicates] with both "Attribution to
    sources" and "Evidence-based language", in any case of the letters the
    lowercased text shows them in. *)
Theorem research_words_also_count_as_evidence :
  forall (U : db) (text : str),
    let text_lower := lower U text in
    let real_indicators := snd (app.analyze_text_features U text) in
    (Str.contains (py "researcher") text_lower = true ->
       In "Expert sources"%string real_indicators
       /\ In "Evidence-based language"%string real_indicators)
    /\ (Str.contains (py "study shows") text_lower = true
        \/ Str.contains (py "research indicates") text_lower = true ->
          In "Attribution to sources"%string real_indicators
          /\ In "Evidence-based language"%string real_indicators).
Proof.
  intros U text text_lower real_indicators. subst real_indicators.
  unfold app.analyze_text_features. fold text_lower. cbn [snd].
  rewrite !In_append_if. split.
  - intros H. split.
    + left; left; right. split; [|reflexivity].
      eapply any_in_intro; [|exact H]. cbn; auto.
    + right. split; [|reflexivity].
      apply (any_in_intro "research"); [cbn; auto|].
      eapply contains_trans; [|exact H]. reflexivity.
  - intros H. split.
    + left; left; left; right. split; [|reflexivity].
      destruct H as [H|H]; (eapply any_in_intro; [|exact H]); cbn; auto.
    + right. split; [|reflexivity].
      destruct H as [H|H].
      * apply (any_in_intro "study"); [cbn; auto|].
        eapply contains_trans; [|exact H]. reflexivity.
      * apply (any_in_intro "research"); [cbn; auto|].
        eapply contains_trans; [|exact H]. reflexivity.
Qed.

Lemma research_words_also_count_as_evidence_witness :
  In "Expert sources"%string
    (snd (app.analyze_text_features basic_latin (py "Two RESEARCHERS said so")))
  /\ In "Evidence-based language"%string
       (snd (app.analyze_text_features basic_latin (py "Two RESEARCHERS said so"))).
Proof.
  apply (proj1 (research_words_also_count_as_evidence basic_latin
                  (py "Two RESEARCHERS said so"))).
  vm_compute. reflexivity.
Defined.

(** X8.  The indicators come out in a fixed order, each at most once: the
    fake-news indicators are a sublist of the five labels in the order of the
    checks, the real-news indicators a sublist of the four. *)
Theorem indicators_in_fixed_order :
  forall (U : db) (text : str),
    subseq (fst (app.analyze_text_features U text))
      ["Sensationalist headlines"; "Emotional language"; "Conspiracy language";
       "Unverifiable sources"; "Excessive exclamation marks"]%string
    /\ subseq (snd (app.analyze_text_features U text))
         ["Attribution to sources"; "Expert sources";
          "Academic/institutional sources"; "Evidence-based language"]%string.
Proof.
  intros U text. unfold app.analyze_text_features. cbn [fst snd].
  split.
  - change ["Sensationalist headlines"; "Emotional language"; "Conspiracy language";
            "Unverifiable sources"; "Excessive exclamation marks"]%string
      with ((((([] ++ ["Sensationalist headlines"%string])
                ++ ["Emotional language"%string])
               ++ ["Conspiracy language"%string])
              ++ ["Unverifiable sources"%string])
             ++ ["Excessive exclamation marks"%string]).
    repeat apply subseq_append_if. constructor.
  - change ["Attribution to sources"; "Expert sources";
            "Academic/institutional sources"; "Evidence-based language"]%string
      with (((([] ++ ["Attribution to sources"%string])
               ++ ["Expert sources"%string])
              ++ ["Academic/institutional sources"%string])
             ++ ["Evidence-based language"%string]).
    repeat apply subseq_append_if. constructor.
Qed.

(** X9.  Exclamation marks: a text with four or more of them is always
    reported with "Excessive exclamation marks", and a text that is reported
    has at least three; one or two exclamation marks are never reported. *)
Theorem exclamation_marks_thresholds :
  forall (U : db) (text : str),
    let marks := count_occ N.eq_dec text 33%N in
    let fake_indicators := fst (app.analyze_text_features U text) in
    (4 <= marks -> In "Excessive exclamation marks"%string fake_indicators)
    /\ (In "Excessive exclamation marks"%string fake_indicators -> 3 <= marks).
Proof.
  intros U text marks fake_indicators. subst marks fake_indicators.
  unfold app.analyze_text_features. cbn [fst].
  rewrite !In_append_if.
  change (py "!") with [33%N]. change (py "!!!") with [33%N; 33%N; 33%N].
  rewrite count_single. split.
  - intros H. right. split; [|reflexivity].
    apply orb_true_iff. right. apply Nat.ltb_lt. lia.
  - intros [[[[[[]|[_ E]]|[_ E]]|[_ E]]|[_ E]]|[H _]]; try discriminate E.
    apply orb_true_iff in H as [H|H].
    + apply contains_three, H.
    + apply Nat.ltb_lt in H. lia.
Qed.

Lemma exclamation_marks_thresholds_witness :
  In "Excessive exclamation marks"%string
    (fst (app.analyze_text_features basic_latin (py "No! No! No! Never!"))).
Proof.
  apply (proj1 (exclamation_marks_thresholds basic_latin (py "No! No! No! Never!"))).
  vm_compute. lia.
Defined.

(** X10.  The keyword indicators ignore case: a text and its lowercase form
    get the same real-news indicators and the same fake-news indicators, the
    exclamation-mark indicator apart, which is read off the text as typed. *)
Theorem keyword_indicators_ignore_case :
  forall (U : db), db_laws U ->
  forall (text : str),
    snd (app.analyze_text_features U (lower U text))
    = snd (app.analyze_text_features U text)
    /\ forall label,
         label <> "Excessive exclamation marks"%string ->
         (In label (fst (app.analyze_text_features U (lower U text)))
          <-> In label (fst (app.analyze_text_features U text))).
Proof.
  intros U laws text. unfold app.analyze_text_features. cbn [fst snd].
  rewrite (lower_lower laws). split; [reflexivity|].
  intros label Hl. rewrite !In_append_if.
  split; (intros [H|[_ E]]; [left; exact H | congruence]).
Qed.

Lemma keyword_indicators_ignore_case_witness :
  snd (app.analyze_text_features basic_latin (lower basic_latin (py "A STUDY by Dr. X")))
  = snd (app.analyze_text_features basic_latin (py "A STUDY by Dr. X")).
Proof.
  apply (proj1 (keyword_indicators_ignore_case basic_latin_laws (py "A STUDY by Dr. X"))).
Defined.

(** ** main(): the session state *)

Section Session.
Context {X : Type}.
Variable U : db.
Variables example_real example_fake : str.
Variable model : app.Model X nat (list R).
Variable vectorizer : app.Vectorizer X.

Lemma coherent_new : coherent U model vectorizer app.new_session.
Proof. exact I. Qed.

Lemma coherent_store prediction probability text s :
  app.predict_news U text model vectorizer = Some (prediction, probability) ->
  coherent U model vectorizer (app.store prediction probability text s).
Proof. intros H. exact H. Qed.

Lemma coherent_set_example text s :
  coherent U model vectorizer s ->
  coherent U model vectorizer (app.set_example_text text s).
Proof. intros H. exact H. Qed.

Lemma results_column_attributes s prediction :
  coherent U model vectorizer s ->
  app.last_prediction s = Some prediction ->
  app.results_column U s prediction <> inl app.AttributeError.
Proof.
  unfold coherent, app.results_column. intros H Hp. rewrite Hp in H.
  destruct (app.last_probability s) as [probability|]; [|contradiction].
  destruct (app.last_text s) as [text|]; [|contradiction].
  destruct (prediction =? 1);
    destruct (nth_error probability 0), (nth_error probability 1);
    cbn [option_map]; discriminate.
Qed.

(** What one run does to a coherent session. *)
Lemma main_spec w s :
  coherent U model vectorizer s ->
  forall s' shown e,
    app.main U example_real example_fake model vectorizer w s = (s', shown, e) ->
    coherent U model vectorizer s'
    /\ e <> app.Raised app.AttributeError
    /\ (forall pn, shown = Some pn ->
          exists s1 p,
            coherent U model vectorizer s1
            /\ app.last_prediction s1 = Some p
            /\ app.results_column U s1 p = inr pn)
    /\ (e = app.Raised app.IndexError ->
          (exists text, app.predict_news U text model vectorizer = None)
          \/ exists s1 p,
               coherent U model vectorizer s1
               /\ app.last_prediction s1 = Some p
               /\ app.results_column U s1 p = inl app.IndexError).
Proof.
  intros Hs.
  assert (Rest : forall s1, coherent U model vectorizer s1 ->
    forall s' shown e,
      (let shown :=
         match app.last_prediction s1 with
         | Some prediction =>
             match app.results_column U s1 prediction with
             | inl e => inl e
             | inr p => inr (Some p)
             end
         | None => inr None
         end in
       match shown with
       | inl e => (s1, None, app.Raised e)
       | inr shown =>
           if app.is_clicked w app.Load_Real_News_Example
           then (app.set_example_text example_real s1, shown, app.Rerun)
           else if app.is_clicked w app.Load_Fake_News_Example
           then (app.set_example_text example_fake s1, shown, app.Rerun)
           else
             match app.example_text s1 with
             | Some text =>
                 if app.is_clicked w app.Analyze_Example
                 then match app.predict_news U text model vectorizer with
                      | None => (s1, shown, app.Raised app.IndexError)
                      | Some (prediction, probability) =>
                          (app.store prediction probability text s1, shown, app.Rerun)
                      end
                 else (s1, shown, app.Finished)
             | None => (s1, shown, app.Finished)
             end
       end) = (s', shown, e) ->
      coherent U model vectorizer s'
      /\ e <> app.Raised app.AttributeError
      /\ (forall pn, shown = Some pn ->
            exists s1 p,
              coherent U model vectorizer s1
              /\ app.last_prediction s1 = Some p
              /\ app.results_column U s1 p = inr pn)
      /\ (e = app.Raised app.IndexError ->
            (exists text, app.predict_news U text model vectorizer = None)
            \/ exists s1 p,
                 coherent U model vectorizer s1
                 /\ app.last_prediction s1 = Some p
                 /\ app.results_column U s1 p = inl app.IndexError)).
  { intros s1 H1 s' shown e. cbv zeta.
    assert (Shown : forall sh,
      match app.last_prediction s1 with
      | Some prediction =>
          match app.results_column U s1 prediction with
          | inl e => inl e
          | inr p => inr (Some p)
          end
      | None => inr None
      end = inr sh ->
      forall pn, sh = Some pn ->
        exists s1 p,
          coherent U model vectorizer s1
          /\ app.last_prediction s1 = Some p
          /\ app.results_column U s1 p = inr pn).
    { intros sh E pn ->. destruct (app.last_prediction s1) as [p|] eqn:LP; [|discriminate].
      destruct (app.results_column U s1 p) as [?|pn'] eqn:RC; [discriminate|].
      injection E as ->. exists s1, p. auto. }
    destruct (match app.last_prediction s1 with
              | Some prediction =>
                  match app.results_column U s1 prediction with
                  | inl e => inl e
                  | inr p => inr (Some p)
                  end
              | None => inr None
              end) as [err|sh] eqn:Esh.
    - intros E. injection E as <- <- <-.
      destruct (app.last_prediction s1) as [p|] eqn:LP; [|discriminate].
      destruct (app.results_column U s1 p) as [err'|?] eqn:RC; [|discriminate].
      injection Esh as ->.
      repeat split; [exact H1 | | discriminate |].
      + intros E. injection E as ->.
        eapply results_column_attributes; [exact H1 | exact LP | exact RC].
      + intros E. injection E as ->. right. exists s1, p. auto.
    - specialize (Shown sh eq_refl).
      destruct (app.is_clicked w app.Load_Real_News_Example);
        [intros E; injection E as <- <- <-; repeat split;
           [apply coherent_set_example, H1 | discriminate | exact Shown | discriminate]|].
      destruct (app.is_clicked w app.Load_Fake_News_Example);
        [intros E; injection E as <- <- <-; repeat split;
           [apply coherent_set_example, H1 | discriminate | exact Shown | discriminate]|].
      destruct (app.example_text s1) as [text|];
        [|intros E; injection E as <- <- <-; repeat split;
            [exact H1 | discriminate | exact Shown | discriminate]].
      destruct (app.is_clicked w app.Analyze_Example);
        [|intros E; injection E as <- <- <-; repeat split;
            [exact H1 | discriminate | exact Shown | discriminate]].
      destruct (app.predict_news U text model vectorizer) as [[p q]|] eqn:P;
        intros E; injection E as <- <- <-; repeat split;
        try exact Shown; try discriminate.
      + apply coherent_store, P.
      + exact H1.
      + intros _. left. exists text. exact P. }
  intros s' shown e. unfold app.main.
  destruct (app.is_clicked w app.Analyze_Article); [|apply Rest, Hs].
  destruct (strip U (app.article_text w)); [apply Rest, Hs|].
  destruct (app.predict_news U (app.article_text w) model vectorizer)
    as [[p q]|] eqn:P.
  - apply Rest, coherent_store, P.
  - intros E. injection E as <- <- <-.
    repeat split; [exact Hs | discriminate | discriminate |].
    intros _. left. exists (app.article_text w). exact P.
Qed.

Lemma runs_coherent ws :
  forall s, coherent U model vectorizer s ->
    coherent U model vectorizer
      (app.runs U example_real example_fake model vectorizer ws s).
Proof.
  induction ws as [|w ws IH]; intros s Hs; cbn [app.runs]; [exact Hs|].
  apply IH.
  destruct (app.main U example_real example_fake model vectorizer w s)
    as [[s' shown] e] eqn:E.
  eapply main_spec in E; [|exact Hs]. exact (proj1 E).
Qed.

End Session.

(** X11.  Whatever the user does, in any number of runs from a fresh session:
    the three attributes of the last prediction are set together, the stored
    label and probabilities are those [predict_news] gives for the stored
    text, and the results column therefore never fails on a missing
    attribute. *)
Theorem session_keeps_prediction_of_stored_text :
  forall (X : Type) (U : db) (example_real example_fake : str)
         (model : app.Model X nat (list R)) (vectorizer : app.Vectorizer X)
         (ws : list app.widgets) (w : app.widgets),
    let s := app.runs U example_real example_fake model vectorizer ws
               app.new_session in
    coherent U model vectorizer s
    /\ snd (app.main U example_real example_fake model vectorizer w s)
       <> app.Raised app.AttributeError.
Proof.
  intros X U example_real example_fake model vectorizer ws w s.
  assert (Hs : coherent U model vectorizer s)
    by (apply runs_coherent, coherent_new).
  split; [exact Hs|].
  destruct (app.main U example_real example_fake model vectorizer w s)
    as [[s' shown] e] eqn:E.
  eapply main_spec in E; [|exact Hs]. exact (proj1 (proj2 E)).
Qed.

(** ** main(): the results column for the fitted classifier *)

Section ResultsColumn.
Variable U : db.
Variable vs : sklearn.VectorizerState.
Variable cs : sklearn.ClassifierState.

Lemma predict_news_sklearn text :
  exists z,
    app.predict_news U text
      (sklearn.LogisticRegression cs) (sklearn.TfidfVectorizer U vs)
    = Some (sklearn.label_of_score z,
            [(1 - sklearn.sigmoid z)%R; sklearn.sigmoid z]).
Proof.
  unfold app.predict_news.
  cbn [app.transform app.predict app.predict_proba
       sklearn.TfidfVectorizer sklearn.LogisticRegression].
  unfold sklearn.transform, sklearn.predict, sklearn.predict_proba.
  cbn [map nth_error]. eexists. reflexivity.
Qed.

Lemma results_column_sklearn s p :
  coherent U (sklearn.LogisticRegression cs) (sklearn.TfidfVectorizer U vs) s ->
  app.last_prediction s = Some p ->
  exists pn,
    app.results_column U s p = inr pn
    /\ (50 <= app.confidence pn <= 100)%R
    /\ ((app.result pn = "REAL NEWS"%string
         /\ app.confidence pn = app.real_prob pn
         /\ (app.fake_prob pn <= app.real_prob pn)%R)
        \/ (app.result pn = "FAKE NEWS"%string
            /\ app.confidence pn = app.fake_prob pn
            /\ (app.real_prob pn <= app.fake_prob pn)%R)).
Proof.
  unfold coherent, app.results_column. intros H Hp. rewrite Hp in H.
  destruct (app.last_probability s) as [q|]; [|contradiction].
  destruct (app.last_text s) as [text|]; [|contradiction].
  cbv beta iota in H.
  destruct (predict_news_sklearn text) as [z Ez].
  pose proof (eq_trans (eq_sym H) Ez) as E. injection E as -> ->. clear H Ez.
  pose proof (sigmoid_bounds z) as Hb.
  pose proof (sigmoid_gt_half z) as Hh.
  unfold sklearn.label_of_score, train_model.real_label, train_model.fake_label.
  destruct (Rlt_dec 0 z) as [Hz|Hz]; cbn [Nat.eqb nth_error option_map];
    eexists; (split; [reflexivity|]);
    cbn [app.confidence app.fake_prob app.real_prob app.result].
  - apply Hh in Hz. repeat split; try lra. left. repeat split; lra.
  - assert (sklearn.sigmoid z <= 1 / 2)%R by (destruct Hh; lra).
    repeat split; try lra. right. repeat split; lra.
Qed.

End ResultsColumn.

(** X12.  With the fitted vectoriser and classifier, no run of the script
    ends in an AttributeError or IndexError, and whenever the results column
    shows a prediction the confidence it displays is the probability of the
    displayed class, in percent, which is not the smaller of the two: it
    lies between 50 and 100, the bounds included. *)
Theorem results_column_shows_the_winning_class :
  forall (U : db) (example_real example_fake : str)
         (vs : sklearn.VectorizerState) (cs : sklearn.ClassifierState)
         (ws : list app.widgets) (w : app.widgets),
    let model := sklearn.LogisticRegression cs in
    let vectorizer := sklearn.TfidfVectorizer U vs in
    let s := app.runs U example_real example_fake model vectorizer ws
               app.new_session in
    let out := app.main U example_real example_fake model vectorizer w s in
    (forall err, snd out <> app.Raised err)
    /\ forall pn, snd (fst out) = Some pn ->
         (50 <= app.confidence pn <= 100)%R
         /\ ((app.result pn = "REAL NEWS"%string
              /\ app.confidence pn = app.real_prob pn
              /\ (app.fake_prob pn <= app.real_prob pn)%R)
             \/ (app.result pn = "FAKE NEWS"%string
                 /\ app.confidence pn = app.fake_prob pn
                 /\ (app.real_prob pn <= app.fake_prob pn)%R)).
Proof.
  intros U example_real example_fake vs cs ws w model vectorizer s out.
  assert (Hs : coherent U model vectorizer s)
    by (apply runs_coherent, coherent_new).
  subst out.
  destruct (app.main U example_real example_fake model vectorizer w s)
    as [[s' shown] e] eqn:E.
  eapply main_spec in E; [|exact Hs].
  destruct E as (_ & Ha & Hshown & Hi). cbn [fst snd]. split.
  - intros [|] ->; [apply Ha; reflexivity|].
    destruct (Hi eq_refl) as [[text P]|(s1 & p & H1 & LP & RC)].
    + destruct (predict_news_sklearn U vs cs text) as [z Ez].
      subst model vectorizer. pose proof (eq_trans (eq_sym P) Ez) as C.
      discriminate C.
    + destruct (results_column_sklearn U vs cs s1 H1 LP) as (pn & Epn & _). congruence.
  - intros pn ->. destruct (Hshown pn eq_refl) as (s1 & p & H1 & LP & RC).
    destruct (results_column_sklearn U vs cs s1 H1 LP) as (pn' & Epn & Hpn).
    rewrite RC in Epn. injection Epn as <-. exact Hpn.
Qed.

(** ** analyze_text_features on a text inside a longer one *)

Section Embedding.
Variable U : db.

Lemma sigma_variant_refl a : sigma_variant a a.
Proof. induction a; constructor; auto. Qed.

Lemma sigma_variant_app a a' b b' :
  sigma_variant a a' -> sigma_variant b b' -> sigma_variant (a ++ b) (a' ++ b').
Proof. apply Forall2_app. Qed.

(** Lowercasing a text inside a longer one gives its lowercase form, up to
    the choice of the lowercase sigmas, between the lowercase forms of what
    stands before and after. *)
Lemma lower_from_app (s after : str) :
  forall before before',
    exists L,
      lower_from U before (s ++ after)
      = L ++ lower_from U (rev s ++ before) after
      /\ sigma_variant L (lower_from U before' s).
Proof.
  induction s as [|c s IH]; intros before before'.
  - exists []. split; [reflexivity | constructor].
  - destruct (IH (c :: before) (c :: before')) as (L & E & HL).
    cbn [app lower_from]. rewrite E.
    eexists (_ ++ L). split.
    + rewrite <- app_assoc. cbn [rev]. rewrite <- (app_assoc (rev s) [c] before).
      reflexivity.
    + apply sigma_variant_app; [|exact HL].
      destruct (c =? CAPITAL_SIGMA)%N; [|apply sigma_variant_refl].
      constructor; [|constructor]. right.
      destruct (final_sigma U before (s ++ after)), (final_sigma U before' s);
        split; reflexivity.
Qed.

Lemma lower_embedded (pre text post : str) :
  exists A T B,
    lower U (pre ++ text ++ post) = A ++ T ++ B
    /\ sigma_variant T (lower U text).
Proof.
  unfold lower.
  destruct (lower_from_app pre (text ++ post) [] []) as (A & EA & _).
  destruct (lower_from_app text post (rev pre ++ []) []) as (T & ET & HT).
  exists A, T, (lower_from U (rev text ++ rev pre ++ []) post).
  rewrite EA, ET. split; [reflexivity | exact HT].
Qed.

Lemma sigma_variant_plain (k a : str) :
  forallb (fun c => negb (is_lower_sigma c)) k = true ->
  sigma_variant a k -> a = k.
Proof.
  intros Hk H. induction H as [|x y a k Hxy H IH]; [reflexivity|].
  cbn [forallb] in Hk. apply andb_true_iff in Hk as [Hy Hk].
  f_equal; [|apply IH, Hk].
  destruct Hxy as [E|[_ E]]; [exact E|].
  rewrite E in Hy. discriminate Hy.
Qed.

Lemma contains_sigma_variant (k a b : str) :
  forallb (fun c => negb (is_lower_sigma c)) k = true ->
  sigma_variant a b -> Str.contains k b = true -> Str.contains k a = true.
Proof.
  intros Hk Hab. rewrite !contains_iff. intros (p & q & ->).
  apply Forall2_app_inv_r in Hab as (p' & r' & _ & Hr & ->).
  apply Forall2_app_inv_r in Hr as (k' & q' & Hk' & _ & ->).
  apply sigma_variant_plain in Hk'; [|exact Hk]. subst k'.
  exists p', q'. reflexivity.
Qed.

Lemma any_in_embedded (words : list string) (pre text post : str) :
  forallb (fun w => forallb (fun c => negb (is_lower_sigma c)) (py w)) words = true ->
  app.any_in words (lower U text) = true ->
  app.any_in words (lower U (pre ++ text ++ post)) = true.
Proof.
  intros Hw. unfold app.any_in. rewrite !existsb_exists.
  intros (w & Hin & Hc). exists w. split; [exact Hin|].
  rewrite forallb_forall in Hw.
  destruct (lower_embedded pre text post) as (A & T & B & -> & HT).
  apply contains_app. eapply contains_sigma_variant; [apply Hw, Hin | exact HT | exact Hc].
Qed.

Lemma exclamations_embedded (pre text post : str) :
  Str.contains (py "!!!") text || (3 <? Str.count (py "!") text) = true ->
  Str.contains (py "!!!") (pre ++ text ++ post)
  || (3 <? Str.count (py "!") (pre ++ text ++ post)) = true.
Proof.
  rewrite !orb_true_iff. intros [H|H].
  - left. apply contains_app, H.
  - right. change (py "!") with [33%N] in *. rewrite count_single in *.
    apply Nat.ltb_lt in H. apply Nat.ltb_lt.
    rewrite !count_occ_app. unfold char in *. lia.
Qed.

End Embedding.

(** X13.  Indicators survive embedding: every indicator reported for a text
    is also reported for any longer text that contains it, whatever stands
    before and after. *)
Theorem indicators_survive_embedding :
  forall (U : db) (pre text post : str) (label : string),
    (In label (fst (app.analyze_text_features U text)) ->
     In label (fst (app.analyze_text_features U (pre ++ text ++ post))))
    /\ (In label (snd (app.analyze_text_features U text)) ->
        In label (snd (app.analyze_text_features U (pre ++ text ++ post)))).
Proof.
  intros U pre text post label.
  unfold app.analyze_text_features. cbn [fst snd].
  rewrite !In_append_if. cbn [In].
  split.
  - intros [[[[[[]|[H E]]|[H E]]|[H E]]|[H E]]|[H E]].
    + left; left; left; left; right. split; [|exact E].
      apply any_in_embedded; [reflexivity | exact H].
    + left; left; left; right. split; [|exact E].
      apply any_in_embedded; [reflexivity | exact H].
    + left; left; right. split; [|exact E].
      apply any_in_embedded; [reflexivity | exact H].
    + left; right. split; [|exact E].
      apply any_in_embedded; [reflexivity | exact H].
    + right. split; [|exact E]. apply exclamations_embedded, H.
  - intros [[[[[]|[H E]]|[H E]]|[H E]]|[H E]].
    + left; left; left; right. split; [|exact E].
      apply any_in_embedded; [reflexivity | exact H].
    + left; left; right. split; [|exact E].
      apply any_in_embedded; [reflexivity | exact H].
    + left; right. split; [|exact E].
      apply any_in_embedded; [reflexivity | exact H].
    + right. split; [|exact E].
      apply any_in_embedded; [reflexivity | exact H].
Qed.

Lemma indicators_survive_embedding_witness :
  In "Unverifiable sources"%string
    (fst (app.analyze_text_features basic_latin
            (py "Says an " ++ py "INSIDER" ++ py ", allegedly"))).
Proof.
  apply (proj1 (indicators_survive_embedding basic_latin
                  (py "Says an ") (py "INSIDER") (py ", allegedly")
                  "Unverifiable sources")).
  vm_compute. auto.
Defined.

(** * Uppercase letters, the probability vector and repeated calls *)

(** ** C10: an uppercase letter that [clean_text] keeps *)

Lemma letterlike_laws : db_laws letterlike.
Proof.
  destruct basic_latin_laws as [a b c d]. split; assumption.
Qed.

(** C10, as stated, fails.  [lower] changes only the letters that have a
    lowercase mapping; U+2102 is an uppercase letter without one, it is a
    word character, and [clean_text] returns it as it is. *)
Lemma uppercase_letter_survives_clean_text :
  db_laws letterlike
  /\ letterlike_isupper DOUBLE_STRUCK_CAPITAL_C = true
  /\ app.clean_text letterlike [DOUBLE_STRUCK_CAPITAL_C] = [DOUBLE_STRUCK_CAPITAL_C]
  /\ ~ (forall c,
          In c (app.clean_text letterlike [DOUBLE_STRUCK_CAPITAL_C]) ->
          letterlike_isupper c = false).
Proof.
  split; [exact letterlike_laws|].
  split; [reflexivity|].
  split; [vm_compute; reflexivity|].
  intros H. specialize (H DOUBLE_STRUCK_CAPITAL_C).
  assert (E : app.clean_text letterlike [DOUBLE_STRUCK_CAPITAL_C]
              = [DOUBLE_STRUCK_CAPITAL_C]) by (vm_compute; reflexivity).
  rewrite E in H. specialize (H (or_introl eq_refl)). discriminate H.
Qed.

(** ** C5: the probability vector *)

(** C5.  For every input text and fixed trained artifacts, [predict_news]
    returns a probability vector of two components, each in [0, 1], whose
    sum is 1 within the tolerance 1e-6. *)
Theorem probabilities_sum_to_one :
  forall (U : db) (vs : sklearn.VectorizerState) (cs : sklearn.ClassifierState)
         (text : str),
    exists label p_fake p_real,
      app.predict_news U text
        (sklearn.LogisticRegression cs) (sklearn.TfidfVectorizer U vs)
      = Some (label, [p_fake; p_real])
      /\ (Rabs (p_fake + p_real - 1) <= 1 / 1000000)%R
      /\ (0 <= p_fake <= 1)%R
      /\ (0 <= p_real <= 1)%R.
Proof.
  intros U vs cs text.
  destruct (predict_news_sklearn U vs cs text) as [z E].
  pose proof (sigmoid_bounds z) as Hb.
  exists (sklearn.label_of_score z), (1 - sklearn.sigmoid z)%R, (sklearn.sigmoid z).
  split; [exact E|]. split; [|split; lra].
  replace (1 - sklearn.sigmoid z + sklearn.sigmoid z - 1)%R with 0%R by ring.
  rewrite Rabs_R0. lra.
Qed.

(** ** C9: calling predict_news again *)

Section Repeatable.
Context {M V X L P : Type}.
Variable model_class : app.ModelClass M X L P.
Variable vectorizer_class : app.VectorizerClass V X.
Variable U : db.
Hypothesis model_read_only : app.read_only_model model_class.
Hypothesis vectorizer_read_only : app.read_only_vectorizer vectorizer_class.

(** A call on read-only objects leaves them as they were. *)
Lemma predict_news_call_leaves_objects text model vectorizer :
  let c := app.predict_news_call model_class vectorizer_class U text
             model vectorizer in
  app.model_after c = model /\ app.vectorizer_after c = vectorizer.
Proof.
  destruct model_read_only as [Hp Hq].
  unfold app.predict_news_call.
  pose proof (vectorizer_read_only vectorizer [app.clean_text U text]) as Hv.
  destruct (app.transform_on vectorizer_class vectorizer [app.clean_text U text])
    as [tv v1]. cbn [snd] in Hv. subst v1.
  pose proof (Hp model tv) as Hm.
  destruct (app.predict_on model_class model tv) as [ps m1].
  cbn [snd] in Hm. subst m1.
  destruct (nth_error ps 0); [|split; reflexivity].
  pose proof (Hq model tv) as Hm.
  destruct (app.predict_proba_on model_class model tv) as [qs m2].
  cbn [snd] in Hm. subst m2.
  destruct (nth_error qs 0); split; reflexivity.
Qed.

End Repeatable.


(** The fitted objects are read-only, and a call on them returns what
    [app.predict_news] returns on the objects seen through their methods. *)
Lemma sklearn_classes_read_only (U : db) :
  app.read_only_model sklearn.LogisticRegression_class
  /\ app.read_only_vectorizer (sklearn.TfidfVectorizer_class U).
Proof. repeat split. Qed.

Lemma predict_news_call_sklearn (U : db) vs cs text :
  let c := app.predict_news_call sklearn.LogisticRegression_class
             (sklearn.TfidfVectorizer_class U) U text cs vs in
  app.text_vec c = sklearn.transform U vs [app.clean_text U text]
  /\ app.returned c
     = app.predict_news U text
         (sklearn.LogisticRegression cs) (sklearn.TfidfVectorizer U vs).
Proof.
  unfold app.predict_news_call, app.predict_news.
  cbn [app.transform_on app.predict_on app.predict_proba_on
       sklearn.TfidfVectorizer_class sklearn.LogisticRegression_class
       app.transform app.predict app.predict_proba
       sklearn.TfidfVectorizer sklearn.LogisticRegression].
  destruct (nth_error _ 0); [destruct (nth_error _ 0)|]; split; reflexivity.
Qed.


(** With a vectoriser that is not read-only the second call differs: the
    one that learns the tokens it sees has one more feature the second
    time. *)
Lemma learning_vectorizer_is_not_repeatable :
  let vs := {| sklearn.vocabulary := []; sklearn.idf := [];
               sklearn.stop_words := [] |} in
  let cs := {| sklearn.weights := []; sklearn.bias := 0%R |} in
  let first :=
    app.predict_news_call sklearn.LogisticRegression_class
      (sklearn.learning_vectorizer_class basic_latin) basic_latin (py "news")
      cs vs in
  let second :=
    app.predict_news_call sklearn.LogisticRegression_class
      (sklearn.learning_vectorizer_class basic_latin) basic_latin (py "news")
      (app.model_after first) (app.vectorizer_after first) in
  app.vectorizer_after first <> vs
  /\ app.text_vec second <> app.text_vec first.
Proof.
  intros vs cs first second.
  assert (V1 : sklearn.vocabulary (app.vectorizer_after first) = [py "news"])
    by (vm_compute; reflexivity).
  assert (F1 : List.length (hd [] (app.text_vec first)) = 0)
    by reflexivity.
  assert (F2 : List.length (hd [] (app.text_vec second)) = 1)
    by reflexivity.
  split.
  - intros E. rewrite E in V1. discriminate V1.
  - intros E. rewrite E in F2. rewrite F1 in F2. discriminate F2.
Qed.
